(** * A database question-answering assistant: the query compiler, the
      executor and the tool-call orchestration of [stuff.py]

    The development embeds the two query compilers ([build_query],
    [build_sql_query]), the executor ([execute_query]) and the two
    orchestration loops ([process_user_question], [process_question]) of the
    Python source, and states what the specification says about them.

    Conventions of the embedding.
    - A Python [str] is a [string]; [lower] and [upper] change the ASCII
      letters, the other characters are kept (code points above 127 are
      outside the model).
    - A JSON scalar as [json.loads] yields it is a [Value]; floating-point
      numbers are outside the model.
    - A dict that the code reads through [.get] and [in] on fixed keys is a
      record of options, [None] for an absent key.  The value stored under a
      key that the code interpolates into an f-string is a [Value]; the value
      under a key on which the code calls a [str] or list method has the type
      the tool schema declares for it. *)

From Stdlib Require Import ZArith String Ascii List Bool Permutation DecimalString Lia.
Import ListNotations.
Open Scope string_scope.

(** ** Python primitives *)

Inductive Value : Type :=
| VNone
| VBool (b : bool)
| VInt (z : Z)
| VStr (s : string).

(** [str(v)], which is also what an f-string field [{v}] renders. *)
Definition str (v : Value) : string :=
  match v with
  | VNone => "None"
  | VBool true => "True"
  | VBool false => "False"
  | VInt z => NilZero.string_of_int (Z.to_int z)
  | VStr s => s
  end.

(** [bool(v)], the test of [if v] and [not v]. *)
Definition truthy (v : Value) : bool :=
  match v with
  | VNone => false
  | VBool b => b
  | VInt z => negb (Z.eqb z 0)
  | VStr s => negb (String.eqb s "")
  end.

(** [bool(l)] for a list. *)
Definition truthy_list {A : Type} (l : list A) : bool :=
  match l with
  | [] => false
  | _ :: _ => true
  end.

Definition isinstance_str (v : Value) : bool :=
  match v with
  | VStr _ => true
  | _ => false
  end.

Definition lower_ascii (c : ascii) : ascii :=
  let n := nat_of_ascii c in
  if (65 <=? n)%nat && (n <=? 90)%nat then ascii_of_nat (n + 32) else c.

Definition upper_ascii (c : ascii) : ascii :=
  let n := nat_of_ascii c in
  if (97 <=? n)%nat && (n <=? 122)%nat then ascii_of_nat (n - 32) else c.

Fixpoint lower (s : string) : string :=
  match s with
  | EmptyString => EmptyString
  | String c s' => String (lower_ascii c) (lower s')
  end.

Fixpoint upper (s : string) : string :=
  match s with
  | EmptyString => EmptyString
  | String c s' => String (upper_ascii c) (upper s')
  end.

(** [s.startswith(p)] *)
Definition startswith (s p : string) : bool := String.prefix p s.

(** [sep.join(l)] *)
Fixpoint join (sep : string) (l : list string) : string :=
  match l with
  | [] => ""
  | [x] => x
  | x :: tl => x ++ sep ++ join sep tl
  end.

(** [d.get(key, default)] on the option that stands for the key. *)
Definition get {A : Type} (entry : option A) (default : A) : A :=
  match entry with
  | Some v => v
  | None => default
  end.

(** [key in d and d[key]] for a key holding a list: the value when the guard
    passes. *)
Definition present_nonempty {A : Type} (entry : option (list A)) : option (list A) :=
  match entry with
  | Some l => if truthy_list l then Some l else None
  | None => None
  end.

(** [key in d and d[key]] for a key holding a scalar. *)
Definition present_truthy (entry : option Value) : option Value :=
  match entry with
  | Some v => if truthy v then Some v else None
  | None => None
  end.

(** [l.append(x)], as the list it leaves. *)
Definition list_append {A : Type} (l : list A) (x : A) : list A := (l ++ [x])%list.

(** [for x in l: acc = body(acc, x)] *)
Definition for_each {A S : Type} (l : list A) (init : S) (body : S -> A -> S) : S :=
  fold_left body l init.

(** ** The query structure *)

Module Condition.
Record t : Type := mk {
  column : option Value;
  operator : option Value;
  value : option Value
}.
End Condition.

Module On.
Record t : Type := mk {
  left_column : option Value;
  right_column : option Value
}.
(** The default [{}] of [join.get("on", {})]. *)
Definition empty : t := mk None None.
End On.

Module Join.
Record t : Type := mk {
  table : option Value;
  type : option string;
  on : option On.t
}.
End Join.

Module OrderSpec.
Record t : Type := mk {
  column : option Value;
  direction : option Value
}.
End OrderSpec.

Module QueryStructure.
Record t : Type := mk {
  table : option Value;
  columns : option (list string);
  conditions : option (list Condition.t);
  joins : option (list Join.t);
  group_by : option (list string);
  order_by : option (list OrderSpec.t);
  limit : option Value
}.
End QueryStructure.

(** A dict is built key by key, from a literal, by item assignment
    ([query_structure["conditions"] = conditions] in [query_database]) or by
    [json.loads] from the members of a JSON object; a later item replaces an
    earlier one under the same key. *)
Inductive Item : Type :=
| ITable (v : Value)
| IColumns (v : list string)
| IConditions (v : list Condition.t)
| IJoins (v : list Join.t)
| IGroupBy (v : list string)
| IOrderBy (v : list OrderSpec.t)
| ILimit (v : Value).

Definition item_key (i : Item) : string :=
  match i with
  | ITable _ => "table"
  | IColumns _ => "columns"
  | IConditions _ => "conditions"
  | IJoins _ => "joins"
  | IGroupBy _ => "group_by"
  | IOrderBy _ => "order_by"
  | ILimit _ => "limit"
  end.

Definition empty_dict : QueryStructure.t :=
  QueryStructure.mk None None None None None None None.

Definition setitem (d : QueryStructure.t) (i : Item) : QueryStructure.t :=
  match i with
  | ITable v =>
      QueryStructure.mk (Some v) (QueryStructure.columns d) (QueryStructure.conditions d) (QueryStructure.joins d) (QueryStructure.group_by d) (QueryStructure.order_by d) (QueryStructure.limit d)
  | IColumns v =>
      QueryStructure.mk (QueryStructure.table d) (Some v) (QueryStructure.conditions d) (QueryStructure.joins d) (QueryStructure.group_by d) (QueryStructure.order_by d) (QueryStructure.limit d)
  | IConditions v =>
      QueryStructure.mk (QueryStructure.table d) (QueryStructure.columns d) (Some v) (QueryStructure.joins d) (QueryStructure.group_by d) (QueryStructure.order_by d) (QueryStructure.limit d)
  | IJoins v =>
      QueryStructure.mk (QueryStructure.table d) (QueryStructure.columns d) (QueryStructure.conditions d) (Some v) (QueryStructure.group_by d) (QueryStructure.order_by d) (QueryStructure.limit d)
  | IGroupBy v =>
      QueryStructure.mk (QueryStructure.table d) (QueryStructure.columns d) (QueryStructure.conditions d) (QueryStructure.joins d) (Some v) (QueryStructure.order_by d) (QueryStructure.limit d)
  | IOrderBy v =>
      QueryStructure.mk (QueryStructure.table d) (QueryStructure.columns d) (QueryStructure.conditions d) (QueryStructure.joins d) (QueryStructure.group_by d) (Some v) (QueryStructure.limit d)
  | ILimit v =>
      QueryStructure.mk (QueryStructure.table d) (QueryStructure.columns d) (QueryStructure.conditions d) (QueryStructure.joins d) (QueryStructure.group_by d) (QueryStructure.order_by d) (Some v)
  end.

Definition dict (items : list Item) : QueryStructure.t :=
  for_each items empty_dict setitem.

(** ** The query compilers *)

(** [build_query], lines 63-121. *)
Definition build_query (query_structure : QueryStructure.t) : string :=
  let columns := join ", " (get (QueryStructure.columns query_structure) ["*"]) in
  let table := get (QueryStructure.table query_structure) (VStr "") in
  if negb (truthy table) then "-- Error: No table specified" else
  let sql := "SELECT " ++ columns ++ " FROM " ++ str table in
  let sql :=
    match present_nonempty (QueryStructure.joins query_structure) with
    | Some js =>
        for_each js sql (fun sql join =>
          let join_table := get (Join.table join) (VStr "") in
          let join_type := upper (get (Join.type join) "INNER") in
          let join_conditions := get (Join.on join) On.empty in
          let left_col := get (On.left_column join_conditions) (VStr "") in
          let right_col := get (On.right_column join_conditions) (VStr "") in
          sql ++ " " ++ join_type ++ " JOIN " ++ str join_table ++ " ON "
              ++ str table ++ "." ++ str left_col ++ " = "
              ++ str join_table ++ "." ++ str right_col)
    | None => sql
    end in
  let sql :=
    match present_nonempty (QueryStructure.conditions query_structure) with
    | Some cs =>
        let conditions := for_each cs [] (fun conditions condition =>
          let column := get (Condition.column condition) (VStr "") in
          let operator := get (Condition.operator condition) (VStr "=") in
          let value := get (Condition.value condition) (VStr "") in
          let formatted_value :=
            if isinstance_str value && negb (startswith (lower (str value)) "select")
            then "'" ++ str value ++ "'"
            else str value in
          list_append conditions (str column ++ " " ++ str operator ++ " " ++ formatted_value)) in
        sql ++ " WHERE " ++ join " AND " conditions
    | None => sql
    end in
  let sql :=
    match present_nonempty (QueryStructure.group_by query_structure) with
    | Some gs =>
        let group_by_cols := join ", " gs in
        sql ++ " GROUP BY " ++ group_by_cols
    | None => sql
    end in
  let sql :=
    match present_nonempty (QueryStructure.order_by query_structure) with
    | Some os =>
        let order_clauses := for_each os [] (fun order_clauses order =>
          let column := get (OrderSpec.column order) (VStr "") in
          let direction := get (OrderSpec.direction order) (VStr "ASC") in
          list_append order_clauses (str column ++ " " ++ str direction)) in
        sql ++ " ORDER BY " ++ join ", " order_clauses
    | None => sql
    end in
  let sql :=
    match present_truthy (QueryStructure.limit query_structure) with
    | Some n => sql ++ " LIMIT " ++ str n
    | None => sql
    end in
  sql.

(** [build_sql_query], lines 450-501: the same clauses, without the guard on
    the table. *)
Definition build_sql_query (query_structure : QueryStructure.t) : string :=
  let columns := join ", " (get (QueryStructure.columns query_structure) ["*"]) in
  let table := get (QueryStructure.table query_structure) (VStr "") in
  let sql := "SELECT " ++ columns ++ " FROM " ++ str table in
  let sql :=
    match present_nonempty (QueryStructure.joins query_structure) with
    | Some js =>
        for_each js sql (fun sql join =>
          let join_table := get (Join.table join) (VStr "") in
          let join_type := upper (get (Join.type join) "INNER") in
          let left_col :=
            get (On.left_column (get (Join.on join) On.empty)) (VStr "") in
          let right_col :=
            get (On.right_column (get (Join.on join) On.empty)) (VStr "") in
          sql ++ " " ++ join_type ++ " JOIN " ++ str join_table ++ " ON "
              ++ str table ++ "." ++ str left_col ++ " = "
              ++ str join_table ++ "." ++ str right_col)
    | None => sql
    end in
  let sql :=
    match present_nonempty (QueryStructure.conditions query_structure) with
    | Some cs =>
        let conditions := for_each cs [] (fun conditions condition =>
          let column := get (Condition.column condition) (VStr "") in
          let operator := get (Condition.operator condition) (VStr "=") in
          let value := get (Condition.value condition) (VStr "") in
          let formatted_value :=
            if isinstance_str value && negb (startswith (lower (str value)) "select")
            then "'" ++ str value ++ "'"
            else str value in
          list_append conditions (str column ++ " " ++ str operator ++ " " ++ formatted_value)) in
        sql ++ " WHERE " ++ join " AND " conditions
    | None => sql
    end in
  let sql :=
    match present_nonempty (QueryStructure.group_by query_structure) with
    | Some gs => sql ++ " GROUP BY " ++ join ", " gs
    | None => sql
    end in
  let sql :=
    match present_nonempty (QueryStructure.order_by query_structure) with
    | Some os =>
        let order_clauses := for_each os [] (fun order_clauses order =>
          let column := get (OrderSpec.column order) (VStr "") in
          let direction := get (OrderSpec.direction order) (VStr "ASC") in
          list_append order_clauses (str column ++ " " ++ str direction)) in
        sql ++ " ORDER BY " ++ join ", " order_clauses
    | None => sql
    end in
  let sql :=
    match present_truthy (QueryStructure.limit query_structure) with
    | Some n => sql ++ " LIMIT " ++ str n
    | None => sql
    end in
  sql.

(** [query_database], lines 422-448: the structure built from the tool's
    parameters and its SQL. *)
Definition query_database (table : Value) (columns : list string)
    (conditions : option (list Condition.t)) (joins : option (list Join.t))
    (group_by : option (list string)) (order_by : option (list OrderSpec.t))
    (limit : option Value) : QueryStructure.t * string :=
  let query_structure := dict [ITable table; IColumns columns] in
  let query_structure :=
    match present_nonempty conditions with
    | Some v => setitem query_structure (IConditions v)
    | None => query_structure
    end in
  let query_structure :=
    match present_nonempty joins with
    | Some v => setitem query_structure (IJoins v)
    | None => query_structure
    end in
  let query_structure :=
    match present_nonempty group_by with
    | Some v => setitem query_structure (IGroupBy v)
    | None => query_structure
    end in
  let query_structure :=
    match present_nonempty order_by with
    | Some v => setitem query_structure (IOrderBy v)
    | None => query_structure
    end in
  let query_structure :=
    match present_truthy limit with
    | Some v => setitem query_structure (ILimit v)
    | None => query_structure
    end in
  let sql := build_sql_query query_structure in
  (query_structure, sql).


(** ** The schema catalog *)

Module Field.
Record t : Type := mk {
  name : string;
  type : string;
  description : option string
}.
End Field.

Module TableInfo.
Record t : Type := mk {
  description : string;
  fields : list Field.t
}.
End TableInfo.

(** The schema as [json.load] yields it: the tables by name, in the order of
    the document. *)
Definition Schema : Type := list (string * TableInfo.t).

Definition nl : string := String (ascii_of_nat 10) EmptyString.

(** [DatabaseQueryAgent.get_schema_description], lines 33-50. *)
Definition DatabaseQueryAgent_get_schema_description (schema : Schema) : string :=
  let description := "DATABASE SCHEMA:" ++ nl ++ nl in
  for_each schema description (fun description item =>
    let '(table_name, table_info) := item in
    let description := description ++ "Table: " ++ table_name ++ nl in
    let description :=
      description ++ "Description: " ++ TableInfo.description table_info ++ nl in
    let description := description ++ "Fields:" ++ nl in
    let description :=
      for_each (TableInfo.fields table_info) description (fun description field =>
        let field_desc := "- " ++ Field.name field ++ " (" ++ Field.type field ++ ")" in
        let field_desc :=
          match Field.description field with
          | Some d => field_desc ++ ": " ++ d
          | None => field_desc
          end in
        description ++ field_desc ++ nl) in
    description ++ nl).

(** [SimplifiedDBAgent.get_schema_description], lines 401-411. *)
Definition SimplifiedDBAgent_get_schema_description (schema : Schema) : string :=
  let description := "DATABASE SCHEMA:" ++ nl ++ nl in
  for_each schema description (fun description item =>
    let '(table_name, table_info) := item in
    let description := description ++ "Table: " ++ table_name ++ nl in
    let description :=
      description ++ "Description: " ++ TableInfo.description table_info ++ nl in
    let description := description ++ "Fields:" ++ nl in
    let description :=
      for_each (TableInfo.fields table_info) description (fun description field =>
        description ++ "- " ++ Field.name field ++ " (" ++ Field.type field ++ "): "
          ++ get (Field.description field) "" ++ nl) in
    description ++ nl).

(** ** Results of the relational engine *)

(** What a call leaves: a value, or an exception of class [Exception] with the
    text [str(e)] of it. *)
Inductive result (A : Type) : Type :=
| Ok (a : A)
| Raise (message : string).
Arguments Ok {A} a.
Arguments Raise {A} message.

(** A tuple of [fetchall]. *)
Definition Row : Type := list Value.

(** What [conn.execute(query)] returns: the rows that [fetchall] gives, or
    the exception it raises, and the [description] attribute, a list of
    tuples headed by the column name, or [None]. *)
Module Cursor.
Record t : Type := mk {
  fetchall : result (list Row);
  description : option (list (string * string))
}.
End Cursor.

(** A result row: a dict from column name to value, its items in insertion
    order. *)
Definition ResultRow : Type := list (string * Value).

(** [d[k] = v] *)
Fixpoint row_setitem (d : ResultRow) (k : string) (v : Value) : ResultRow :=
  match d with
  | [] => [(k, v)]
  | (k', v') :: d' =>
      if String.eqb k' k then (k', v) :: d' else (k', v') :: row_setitem d' k v
  end.

(** [dict(pairs)] *)
Definition row_dict (pairs : list (string * Value)) : ResultRow :=
  for_each pairs [] (fun d kv => row_setitem d (fst kv) (snd kv)).

(** [zip(a, b)] *)
Definition zip {A B : Type} (a : list A) (b : list B) : list (A * B) := combine a b.

(** [d.get(k)] *)
Fixpoint row_get (d : ResultRow) (k : string) : option Value :=
  match d with
  | [] => None
  | (k', v) :: d' => if String.eqb k' k then Some v else row_get d' k
  end.

(** ** Messages of the model service *)

Module Arguments.
(** The object that [json.loads] decodes from the arguments of a tool call:
    the keys of a query structure and the key [query]. *)
Record t : Type := mk {
  structure : QueryStructure.t;
  query : option Value
}.
End Arguments.

Module ToolCall.
(** [arguments] is the decoded text, [None] for a text that [json.loads]
    rejects. *)
Record t : Type := mk {
  id : string;
  function_name : string;
  function_arguments : option Arguments.t
}.
End ToolCall.

Module ChatMessage.
(** [response.choices[0].message] *)
Record t : Type := mk {
  content : option string;
  tool_calls : option (list ToolCall.t)
}.
End ChatMessage.

(** The value that [json.dumps] serializes into the content of a tool
    message; the text itself is not modelled. *)
Inductive Payload : Type :=
| PSql (key : string) (sql : string)
| PRows (rows : list ResultRow).

Inductive Message : Type :=
| RoleMessage (role : string) (content : string)
| ResponseMessage (message : ChatMessage.t)
| ToolMessage (tool_call_id : string) (name : string) (content : Payload).

Inductive ToolChoice : Type :=
| Auto
| Function (name : string).

Module Tool.
(** A function tool: its name and the required keys of its parameters. *)
Record t : Type := mk {
  name : string;
  required : list string
}.
End Tool.

Module Request.
(** The keyword arguments of [client.chat.completions.create]; [None] for
    an argument that the call leaves out. *)
Record t : Type := mk {
  model : option string;
  messages : list Message;
  tools : option (list Tool.t);
  tool_choice : option ToolChoice
}.
End Request.

(** What a run does to its collaborators, in order: an invocation of the
    model service with the message it answered, a statement submitted to the
    engine. *)
Inductive Event : Type :=
| Invoked (request : Request.t) (response : ChatMessage.t)
| Executed (query : Value).

(** The dict that [process_question] returns. *)
Module Results.
Record t : Type := mk {
  question : string;
  sql_query : option string;
  query_results : option (list ResultRow);
  final_answer : option string
}.
End Results.

(** The dict that [process_user_question] returns. *)
Module Answer.
Record t : Type := mk {
  answer : option string;
  query_results : option (list ResultRow)
}.
End Answer.

(** [bool(x)] for a list or [None]. *)
Definition truthy_option_list {A : Type} (l : option (list A)) : bool :=
  match l with
  | Some l => truthy_list l
  | None => false
  end.

(** The tools of [process_user_question], lines 130-255. *)
Definition tools_process_user_question : list Tool.t :=
  [Tool.mk "query_database" ["table"]; Tool.mk "execute_query" ["query"]].

(** The tools of [process_question], lines 514-602. *)
Definition tools_process_question : list Tool.t :=
  [Tool.mk "query_database" ["table"; "columns"]; Tool.mk "execute_query" ["query"]].

(** ** The executor and the orchestration loops

    The model service and the relational engine are parameters: each takes
    the state of the world outside the program and leaves a new one.  The
    model service answers every request; the engine answers or raises. *)

Section Assistant.

Variable World : Type.
Variable create : Request.t -> World -> ChatMessage.t * World.
Variable conn_execute : Value -> World -> result Cursor.t * World.
Variable deployment_name : option string.
Variable schema : Schema.

Record State : Type := mkState {
  world : World;
  trace : list Event
}.

(** Computations that read and change the world and may raise. *)
Definition M (A : Type) : Type := State -> result A * State.

Definition ret {A : Type} (a : A) : M A := fun s => (Ok a, s).

Definition bind {A B : Type} (m : M A) (k : A -> M B) : M B :=
  fun s =>
    match m s with
    | (Ok a, s') => k a s'
    | (Raise e, s') => (Raise e, s')
    end.

Definition raise {A : Type} (message : string) : M A :=
  fun s => (Raise message, s).

(** [try: body except Exception as e: handler(str(e))] *)
Definition try_except {A : Type} (body : M A) (handler : string -> M A) : M A :=
  fun s =>
    match body s with
    | (Ok a, s') => (Ok a, s')
    | (Raise e, s') => handler e s'
    end.

Definition lift {A : Type} (r : result A) : M A := fun s => (r, s).

Notation "x <- m ;; k" := (bind m (fun x => k))
  (at level 61, m at next level, right associativity).

(** [for x in l: acc = body(acc, x)], the body with effects. *)
Fixpoint for_each_M {A S : Type} (l : list A) (acc : S) (body : S -> A -> M S) : M S :=
  match l with
  | [] => ret acc
  | x :: l' => acc' <- body acc x ;; for_each_M l' acc' body
  end.

(** [client.chat.completions.create(...).choices[0].message] *)
Definition chat_completions_create (request : Request.t) : M ChatMessage.t :=
  fun s =>
    let (message, w) := create request (world s) in
    (Ok message, mkState w (trace s ++ [Invoked request message])).

(** [self.conn.execute(query)] *)
Definition execute (query : Value) : M Cursor.t :=
  fun s =>
    let (r, w) := conn_execute query (world s) in
    (r, mkState w (trace s ++ [Executed query])).

(** [json.loads(tool_call.function.arguments)] *)
Definition json_loads (arguments : option Arguments.t) : M Arguments.t :=
  match arguments with
  | Some a => ret a
  | None => raise "JSONDecodeError"
  end.

(** The iteration [for col in description]. *)
Definition iterate {A : Type} (l : option (list A)) : M (list A) :=
  match l with
  | Some l => ret l
  | None => raise "'NoneType' object is not iterable"
  end.

(** [DatabaseQueryAgent.execute_query], lines 52-61. *)
Definition DatabaseQueryAgent_execute_query (query : Value) : M (list ResultRow) :=
  try_except
    (cursor <- execute query ;;
     result <- lift (Cursor.fetchall cursor) ;;
     cursor <- execute query ;;
     description <- iterate (Cursor.description cursor) ;;
     let columns := map (fun col => fst col) description in
     ret (map (fun row => row_dict (zip columns row)) result))
    (fun e => ret [[("error", VStr e)]]).

(** [SimplifiedDBAgent.execute_query], lines 413-420. *)
Definition SimplifiedDBAgent_execute_query (query : Value) : M (list ResultRow) :=
  try_except
    (cursor <- execute query ;;
     result <- lift (Cursor.fetchall cursor) ;;
     cursor <- execute query ;;
     description <- iterate (Cursor.description cursor) ;;
     let columns := map (fun col => fst col) description in
     ret (map (fun row => row_dict (zip columns row)) result))
    (fun e => ret [[("error", VStr e)]]).

(** [execute_query], lines 503-506. *)
Definition execute_query (query : Value) : M (list ResultRow) :=
  SimplifiedDBAgent_execute_query query.

(** [process_user_question], lines 123-351. *)
Definition process_user_question (question : string) : M Answer.t :=
  let schema_description := DatabaseQueryAgent_get_schema_description schema in
  let tools := tools_process_user_question in
  let messages :=
    [RoleMessage "system"
       ("You are a helpful database assistant that helps users query a database. Here is the database schema:"
          ++ nl ++ nl ++ schema_description);
     RoleMessage "user" question] in
  response_message <-
    chat_completions_create
      (Request.mk deployment_name messages (Some tools) (Some Auto)) ;;
  let messages := list_append messages (ResponseMessage response_message) in
  let query_results : option (list ResultRow) := None in
  st <-
    (if truthy_option_list (ChatMessage.tool_calls response_message) then
       for_each_M (get (ChatMessage.tool_calls response_message) [])
         (messages, query_results)
         (fun st tool_call =>
            let '(messages, query_results) := st in
            let function_name := ToolCall.function_name tool_call in
            function_args <- json_loads (ToolCall.function_arguments tool_call) ;;
            if String.eqb function_name "query_database" then
              let sql_query := build_query (Arguments.structure function_args) in
              let messages :=
                list_append messages
                  (ToolMessage (ToolCall.id tool_call) "query_database"
                     (PSql "query" sql_query)) in
              follow_up_message <-
                chat_completions_create
                  (Request.mk deployment_name messages (Some tools) (Some Auto)) ;;
              let messages := list_append messages (ResponseMessage follow_up_message) in
              if truthy_option_list (ChatMessage.tool_calls follow_up_message) then
                for_each_M (get (ChatMessage.tool_calls follow_up_message) [])
                  (messages, query_results)
                  (fun st follow_tool_call =>
                     let '(messages, query_results) := st in
                     if String.eqb (ToolCall.function_name follow_tool_call) "execute_query"
                     then
                       execute_args <-
                         json_loads (ToolCall.function_arguments follow_tool_call) ;;
                       let query := get (Arguments.query execute_args) VNone in
                       rows <- DatabaseQueryAgent_execute_query query ;;
                       let query_results := Some rows in
                       let messages :=
                         list_append messages
                           (ToolMessage (ToolCall.id follow_tool_call) "execute_query"
                              (PRows rows)) in
                       ret (messages, query_results)
                     else ret (messages, query_results))
              else ret (messages, query_results)
            else if String.eqb function_name "execute_query" then
              let query := get (Arguments.query function_args) VNone in
              rows <- DatabaseQueryAgent_execute_query query ;;
              let query_results := Some rows in
              let messages :=
                list_append messages
                  (ToolMessage (ToolCall.id tool_call) "execute_query" (PRows rows)) in
              ret (messages, query_results)
            else ret (messages, query_results))
     else ret (messages, query_results)) ;;
  let '(messages, query_results) := st in
  final_response <-
    chat_completions_create (Request.mk deployment_name messages None None) ;;
  ret (Answer.mk (ChatMessage.content final_response) query_results).

(** [process_question], lines 508-695. *)
Definition process_question (question : string) : M Results.t :=
  let schema_description := SimplifiedDBAgent_get_schema_description schema in
  let tools := tools_process_question in
  let messages :=
    [RoleMessage "system"
       ("You are a database assistant. Based on the user's question, determine the appropriate database query to execute."
          ++ nl ++ nl ++ schema_description);
     RoleMessage "user" question] in
  response_message <-
    chat_completions_create
      (Request.mk deployment_name messages (Some tools) (Some Auto)) ;;
  let messages := list_append messages (ResponseMessage response_message) in
  let results := Results.mk question None None None in
  st <-
    (if truthy_option_list (ChatMessage.tool_calls response_message) then
       for_each_M (get (ChatMessage.tool_calls response_message) [])
         (messages, results)
         (fun st tool_call =>
            let '(messages, results) := st in
            let function_name := ToolCall.function_name tool_call in
            function_args <- json_loads (ToolCall.function_arguments tool_call) ;;
            if String.eqb function_name "query_database" then
              let args := Arguments.structure function_args in
              let query_structure :=
                QueryStructure.mk
                  (Some (get (QueryStructure.table args) VNone))
                  (Some (get (QueryStructure.columns args) ["*"]))
                  (Some (get (QueryStructure.conditions args) []))
                  (Some (get (QueryStructure.joins args) []))
                  (Some (get (QueryStructure.group_by args) []))
                  (Some (get (QueryStructure.order_by args) []))
                  (Some (get (QueryStructure.limit args) VNone)) in
              let sql_query := build_sql_query query_structure in
              let results :=
                Results.mk (Results.question results) (Some sql_query)
                  (Results.query_results results) (Results.final_answer results) in
              let messages :=
                list_append messages
                  (ToolMessage (ToolCall.id tool_call) "query_database"
                     (PSql "sql" sql_query)) in
              follow_message <-
                chat_completions_create
                  (Request.mk deployment_name messages (Some tools)
                     (Some (Function "execute_query"))) ;;
              let messages := list_append messages (ResponseMessage follow_message) in
              if truthy_option_list (ChatMessage.tool_calls follow_message) then
                for_each_M (get (ChatMessage.tool_calls follow_message) [])
                  (messages, results)
                  (fun st exec_call =>
                     let '(messages, results) := st in
                     if String.eqb (ToolCall.function_name exec_call) "execute_query"
                     then
                       exec_args <- json_loads (ToolCall.function_arguments exec_call) ;;
                       let query := get (Arguments.query exec_args) VNone in
                       query_results <- SimplifiedDBAgent_execute_query query ;;
                       let results :=
                         Results.mk (Results.question results) (Results.sql_query results)
                           (Some query_results) (Results.final_answer results) in
                       let messages :=
                         list_append messages
                           (ToolMessage (ToolCall.id exec_call) "execute_query"
                              (PRows query_results)) in
                       ret (messages, results)
                     else ret (messages, results))
              else ret (messages, results)
            else ret (messages, results))
     else ret (messages, results)) ;;
  let '(messages, results) := st in
  final_response <-
    chat_completions_create (Request.mk deployment_name messages None None) ;;
  let results :=
    Results.mk (Results.question results) (Results.sql_query results)
      (Results.query_results results) (ChatMessage.content final_response) in
  ret results.

End Assistant.

Arguments world {World} s.
Arguments trace {World} s.
Arguments mkState {World} world trace.

Arguments ret {World A} a.
Arguments bind {World A B} m k.
Arguments raise {World A} message.
Arguments try_except {World A} body handler.
Arguments lift {World A} r.
Arguments for_each_M {World A S} l acc body.
Arguments json_loads {World} arguments.
Arguments iterate {World A} l.
(** ** The clauses as the specification lists them (section 4.2)

    Each clause is a function of the structure alone; [compile_clauses] puts
    them in the order SELECT, JOIN, WHERE, GROUP BY, ORDER BY, LIMIT. *)

Definition format_value (v : Value) : string :=
  match v with
  | VStr s => if startswith (lower s) "select" then s else "'" ++ s ++ "'"
  | _ => str v
  end.

Definition render_condition (c : Condition.t) : string :=
  str (get (Condition.column c) (VStr "")) ++ " "
    ++ str (get (Condition.operator c) (VStr "=")) ++ " "
    ++ format_value (get (Condition.value c) (VStr "")).

Definition render_join (table : Value) (j : Join.t) : string :=
  " " ++ upper (get (Join.type j) "INNER") ++ " JOIN "
    ++ str (get (Join.table j) (VStr "")) ++ " ON "
    ++ str table ++ "."
    ++ str (get (On.left_column (get (Join.on j) On.empty)) (VStr "")) ++ " = "
    ++ str (get (Join.table j) (VStr "")) ++ "."
    ++ str (get (On.right_column (get (Join.on j) On.empty)) (VStr "")).

Definition render_order (o : OrderSpec.t) : string :=
  str (get (OrderSpec.column o) (VStr "")) ++ " "
    ++ str (get (OrderSpec.direction o) (VStr "ASC")).

Definition projection (qs : QueryStructure.t) : string :=
  join ", " (get (QueryStructure.columns qs) ["*"]).

Definition select_clause (qs : QueryStructure.t) : string :=
  "SELECT " ++ projection qs ++ " FROM "
    ++ str (get (QueryStructure.table qs) (VStr "")).

Definition joins_clause (qs : QueryStructure.t) : string :=
  String.concat ""
    (map (render_join (get (QueryStructure.table qs) (VStr "")))
         (get (QueryStructure.joins qs) [])).

Definition where_clause (qs : QueryStructure.t) : string :=
  match get (QueryStructure.conditions qs) [] with
  | [] => ""
  | cs => " WHERE " ++ join " AND " (map render_condition cs)
  end.

Definition group_by_clause (qs : QueryStructure.t) : string :=
  match get (QueryStructure.group_by qs) [] with
  | [] => ""
  | gs => " GROUP BY " ++ join ", " gs
  end.

Definition order_by_clause (qs : QueryStructure.t) : string :=
  match get (QueryStructure.order_by qs) [] with
  | [] => ""
  | os => " ORDER BY " ++ join ", " (map render_order os)
  end.

Definition limit_clause (qs : QueryStructure.t) : string :=
  match QueryStructure.limit qs with
  | Some n => if truthy n then " LIMIT " ++ str n else ""
  | None => ""
  end.

Definition compile_clauses (qs : QueryStructure.t) : string :=
  select_clause qs ++ joins_clause qs ++ where_clause qs
    ++ group_by_clause qs ++ order_by_clause qs ++ limit_clause qs.


(** The rendering of a condition with the defaults written out. *)
Definition render_condition_defaults (c : Condition.t) : string :=
  str (get (Condition.column c) (VStr "")) ++ " "
    ++ match Condition.operator c with
       | Some op => str op
       | None => "="
       end
    ++ " "
    ++ match Condition.value c with
       | Some v => format_value v
       | None => "''"
       end.

(** ** Structures used as examples *)

Definition budgets : QueryStructure.t :=
  dict [ITable (VStr "budgets");
        IColumns ["department"; "amount"];
        IConditions [Condition.mk (Some (VStr "year")) (Some (VStr "=")) (Some (VStr "2023"));
                     Condition.mk (Some (VStr "department")) (Some (VStr "="))
                       (Some (VStr "Engineering"))]].

Definition sparse_conditions : list Condition.t :=
  [Condition.mk (Some (VStr "a")) None None;
   Condition.mk (Some (VStr "b")) None (Some (VInt 3));
   Condition.mk (Some (VStr "c")) (Some (VStr "<")) None].


(** ** What the engine does with a statement

    [execute_query] submits the statement, fetches the rows, submits the
    statement again and reads the description.  [engine_failure] lists the
    ways in which this raises, with the text of the exception;
    [engine_success] is the run in which nothing raises, with the rows and
    the column names. *)

Section EngineOutcome.

Variable World : Type.
Variable conn_execute : Value -> World -> result Cursor.t * World.

Inductive engine_failure (query : Value) (w : World) : string -> World -> Prop :=
| failure_execute (e : string) (w1 : World) :
    conn_execute query w = (Raise e, w1) ->
    engine_failure query w e w1
| failure_fetchall (c : Cursor.t) (e : string) (w1 : World) :
    conn_execute query w = (Ok c, w1) ->
    Cursor.fetchall c = Raise e ->
    engine_failure query w e w1
| failure_execute_again (c : Cursor.t) (rows : list Row) (e : string) (w1 w2 : World) :
    conn_execute query w = (Ok c, w1) ->
    Cursor.fetchall c = Ok rows ->
    conn_execute query w1 = (Raise e, w2) ->
    engine_failure query w e w2
| failure_description (c c' : Cursor.t) (rows : list Row) (w1 w2 : World) :
    conn_execute query w = (Ok c, w1) ->
    Cursor.fetchall c = Ok rows ->
    conn_execute query w1 = (Ok c', w2) ->
    Cursor.description c' = None ->
    engine_failure query w "'NoneType' object is not iterable" w2.

Inductive engine_success (query : Value) (w : World) :
    list Row -> list string -> World -> Prop :=
| success (c c' : Cursor.t) (rows : list Row) (d : list (string * string))
    (w1 w2 : World) :
    conn_execute query w = (Ok c, w1) ->
    Cursor.fetchall c = Ok rows ->
    conn_execute query w1 = (Ok c', w2) ->
    Cursor.description c' = Some d ->
    engine_success query w rows (map fst d) w2.

End EngineOutcome.

(** The keys of a dict built from [keys] in order: each key once, at its
    first place. *)
Definition first_occurrences (keys : list string) : list string :=
  for_each keys [] (fun seen k =>
    if existsb (String.eqb k) seen then seen else list_append seen k).

(** An engine that knows one statement. *)
Definition toy_cursor : Cursor.t :=
  Cursor.mk (Ok [[VStr "Engineering"; VInt 100]; [VStr "Marketing"; VInt 50]])
            (Some [("department", "VARCHAR"); ("amount", "INTEGER")]).

Definition toy_engine (query : Value) (w : unit) : result Cursor.t * unit :=
  let known :=
    match query with
    | VStr q => String.eqb q "SELECT department, amount FROM budgets"
    | _ => false
    end in
  if known then (Ok toy_cursor, w) else (Raise "Parser Error: syntax error", w).

(** An engine whose exception carries no text, as [raise Exception()] does:
    [str(e)] is the empty string. *)
Definition silent_engine (query : Value) (w : unit) : result Cursor.t * unit :=
  (Raise "", w).

(** ** The conversation of a run *)

(** The conversation as INIT seeds it: the system message with the rendered
    schema, then the question. *)
Definition seed_process_question (schema : Schema) (question : string) : list Message :=
  [RoleMessage "system"
     ("You are a database assistant. Based on the user's question, determine the appropriate database query to execute."
        ++ nl ++ nl ++ SimplifiedDBAgent_get_schema_description schema);
   RoleMessage "user" question].

(** The first invocation: both tools, automatic tool selection. *)
Definition first_request (deployment_name : option string) (schema : Schema)
    (question : string) : Request.t :=
  Request.mk deployment_name (seed_process_question schema question)
    (Some tools_process_question) (Some Auto).

(** The invocation for the answer: the conversation extended by the first
    response, no tools. *)
Definition answer_request (deployment_name : option string) (schema : Schema)
    (question : string) (first : ChatMessage.t) : Request.t :=
  Request.mk deployment_name
    (seed_process_question schema question ++ [ResponseMessage first])%list
    None None.

(** The requests of a trace, and the statements submitted to the engine. *)
Definition invocations (t : list Event) : list Request.t :=
  flat_map (fun ev => match ev with Invoked r _ => [r] | Executed _ => [] end) t.

Definition executed (t : list Event) : list Value :=
  flat_map (fun ev => match ev with Invoked _ _ => [] | Executed q => [q] end) t.

(** ** Model services used as examples *)

(** A model that answers without a tool call, and says something else when
    it is asked again without tools. *)
Definition direct_model (request : Request.t) (w : unit) : ChatMessage.t * unit :=
  match Request.tools request with
  | Some _ => (ChatMessage.mk (Some "The budget was 100.") None, w)
  | None => (ChatMessage.mk (Some "I have no data to answer from.") None, w)
  end.

(** A model that first calls [query_database] for the table [budgets], then
    calls [execute_query] with a statement of its own, then answers. *)
Definition structured_model (request : Request.t) (w : unit) : ChatMessage.t * unit :=
  match Request.tools request, Request.messages request with
  | Some _, [_; _] =>
      (ChatMessage.mk None
         (Some [ToolCall.mk "call_1" "query_database"
                  (Some (Arguments.mk (dict [ITable (VStr "budgets")]) None))]), w)
  | Some _, _ =>
      (ChatMessage.mk None
         (Some [ToolCall.mk "call_2" "execute_query"
                  (Some (Arguments.mk empty_dict
                           (Some (VStr "SELECT department, amount FROM budgets"))))]), w)
  | None, _ => (ChatMessage.mk (Some "Engineering has 100, Marketing 50.") None, w)
  end.

(** ** Runs used as examples *)

Definition example_question : string := "What was the budget for Engineering department in 2023?".

Definition run_process_user_question : result Answer.t * State unit :=
  process_user_question unit structured_model toy_engine None [] example_question
    (mkState tt []).

Definition run_process_question : result Results.t * State unit :=
  process_question unit structured_model toy_engine None [] example_question
    (mkState tt []).

(** ** What a computation adds to the trace *)

(** [adds m Q]: from every state, [m] leaves the trace extended by some
    events [t], and [Q] holds of what [m] leaves and of [t]. *)
Definition adds {World A : Type} (m : M World A)
    (Q : result A -> list Event -> Prop) : Prop :=
  forall s : State World,
    exists t, trace (snd (m s)) = (trace s ++ t)%list /\ Q (fst (m s)) t.

(** A request that forces the tool [execute_query], with the tools of
    [process_question]. *)
Definition forces_execute_query (request : Request.t) : Prop :=
  Request.tool_choice request = Some (Function "execute_query")
  /\ Request.tools request = Some tools_process_question.

(** The statement [q] is the one of an [execute_query] tool call in the
    answer to an invocation of [t] that forced that tool. *)
Definition supplied_by_forced_call (t : list Event) (q : Value) : Prop :=
  exists request response calls call arguments,
    In (Invoked request response) t
    /\ forces_execute_query request
    /\ ChatMessage.tool_calls response = Some calls
    /\ In call calls
    /\ ToolCall.function_name call = "execute_query"
    /\ ToolCall.function_arguments call = Some arguments
    /\ q = get (Arguments.query arguments) VNone.

(** Every statement submitted in [t] is supplied by a forced call of [t]. *)
Definition statements_supplied (t : list Event) : Prop :=
  forall q, In (Executed q) t -> supplied_by_forced_call t q.

(** A tool call that the loop of [process_question] passes over: another
    tool, with arguments that decode. *)
Definition passed_over (call : ToolCall.t) : Prop :=
  ToolCall.function_name call <> "query_database"
  /\ ToolCall.function_arguments call <> None.

(** The events of a run of [process_question]: the first invocation; then,
    when the first response calls [query_database] after calls that are
    passed over, an invocation that forces [execute_query]. *)
Definition second_invocation_forced (deployment_name : option string) (schema : Schema)
    (question : string) (t : list Event) : Prop :=
  exists first rest,
    t = Invoked (first_request deployment_name schema question) first :: rest
    /\ forall pre call post,
         ChatMessage.tool_calls first = Some (pre ++ call :: post)%list ->
         Forall passed_over pre ->
         ToolCall.function_name call = "query_database" ->
         ToolCall.function_arguments call <> None ->
         exists request follow rest',
           rest = Invoked request follow :: rest'
           /\ forces_execute_query request.

(** What one round of the loop of [process_question] adds, for the tool call
    of the round. *)
Definition round_events (call : ToolCall.t) (r : result (list Message * Results.t))
    (t : list Event) : Prop :=
  statements_supplied t
  /\ (passed_over call -> t = [] /\ exists st, r = Ok st)
  /\ (ToolCall.function_name call = "query_database" ->
      ToolCall.function_arguments call <> None ->
      exists request follow rest,
        t = Invoked request follow :: rest /\ forces_execute_query request).


(** ** Structures compared with the ones the compilers are given *)

(** The structure without its [limit] key. *)
Definition without_limit (qs : QueryStructure.t) : QueryStructure.t :=
  QueryStructure.mk (QueryStructure.table qs) (QueryStructure.columns qs)
    (QueryStructure.conditions qs) (QueryStructure.joins qs)
    (QueryStructure.group_by qs) (QueryStructure.order_by qs) None.

(** The structure without the list keys that hold an empty list. *)
Definition without_empty_lists (qs : QueryStructure.t) : QueryStructure.t :=
  QueryStructure.mk (QueryStructure.table qs) (QueryStructure.columns qs)
    (present_nonempty (QueryStructure.conditions qs))
    (present_nonempty (QueryStructure.joins qs))
    (present_nonempty (QueryStructure.group_by qs))
    (present_nonempty (QueryStructure.order_by qs))
    (QueryStructure.limit qs).

(** A join with its type written out in upper case, [INNER] when the join
    has none. *)
Definition with_upper_type (j : Join.t) : Join.t :=
  Join.mk (Join.table j) (Some (upper (get (Join.type j) "INNER"))) (Join.on j).

(** The rendering of a join with the defaults written out: [INNER] for an
    absent type, the empty string for an absent table, [on] object or
    column. *)
Definition render_join_defaults (table : string) (j : Join.t) : string :=
  let join_table :=
    match Join.table j with
    | Some v => str v
    | None => ""
    end in
  let column (c : On.t -> option Value) :=
    match Join.on j with
    | Some o => match c o with Some v => str v | None => "" end
    | None => ""
    end in
  " " ++ match Join.type j with
         | Some ty => upper ty
         | None => "INNER"
         end
    ++ " JOIN " ++ join_table ++ " ON " ++ table ++ "." ++ column On.left_column
    ++ " = " ++ join_table ++ "." ++ column On.right_column.

(** The rendering of an order specification with the defaults written out. *)
Definition render_order_defaults (o : OrderSpec.t) : string :=
  match OrderSpec.column o with
  | Some v => str v
  | None => ""
  end
  ++ " "
  ++ match OrderSpec.direction o with
     | Some v => str v
     | None => "ASC"
     end.

(** The arguments of [query_database] as one structure, every key present
    that the caller passed. *)
Definition query_database_arguments (table : Value) (columns : list string)
    (conditions : option (list Condition.t)) (joins : option (list Join.t))
    (group_by : option (list string)) (order_by : option (list OrderSpec.t))
    (limit : option Value) : QueryStructure.t :=
  QueryStructure.mk (Some table) (Some columns) conditions joins group_by order_by limit.

(** No optional key of the structure holds an empty list or a falsy limit. *)
Definition optional_keys_truthy (qs : QueryStructure.t) : Prop :=
  QueryStructure.conditions qs <> Some []
  /\ QueryStructure.joins qs <> Some []
  /\ QueryStructure.group_by qs <> Some []
  /\ QueryStructure.order_by qs <> Some []
  /\ forall n, QueryStructure.limit qs = Some n -> truthy n = true.

(** ** The schema catalog *)






(** ** An engine with effects *)

(** An engine whose world is the number of statements it has run; each
    statement returns that number in the column [count]. *)
Definition counting_engine (query : Value) (w : nat) : result Cursor.t * nat :=
  (Ok (Cursor.mk (Ok [[VInt (Z.of_nat w)]]) (Some [("count", "INTEGER")])), S w).

(** ** Conversations of the orchestration loops *)

(** The conversation that [process_user_question] starts from, lines
    257-260. *)
Definition seed_process_user_question (schema : Schema) (question : string)
    : list Message :=
  [RoleMessage "system"
     ("You are a helpful database assistant that helps users query a database. Here is the database schema:"
        ++ nl ++ nl ++ DatabaseQueryAgent_get_schema_description schema);
   RoleMessage "user" question].

(** The first invocation of [process_user_question], lines 263-268. *)
Definition first_request_user (deployment_name : option string) (schema : Schema)
    (question : string) : Request.t :=
  Request.mk deployment_name (seed_process_user_question schema question)
    (Some tools_process_user_question) (Some Auto).

(** The structure that [process_question] builds from the arguments of a
    [query_database] call, lines 636-644. *)
Definition query_structure_with_defaults (args : QueryStructure.t) : QueryStructure.t :=
  QueryStructure.mk
    (Some (get (QueryStructure.table args) VNone))
    (Some (get (QueryStructure.columns args) ["*"]))
    (Some (get (QueryStructure.conditions args) []))
    (Some (get (QueryStructure.joins args) []))
    (Some (get (QueryStructure.group_by args) []))
    (Some (get (QueryStructure.order_by args) []))
    (Some (get (QueryStructure.limit args) VNone)).

(** A tool call that the loop of [process_user_question] passes over: a
    tool that is neither of the two, with arguments that decode. *)
Definition passed_over_user (call : ToolCall.t) : Prop :=
  ToolCall.function_name call <> "query_database"
  /\ ToolCall.function_name call <> "execute_query"
  /\ ToolCall.function_arguments call <> None.


(** A run that returned ends with an invocation without tools, whose
    content is the answer [content]; it starts with the invocation
    [first]. *)
Definition answered_by_last_invocation (deployment_name : option string)
    (first : Request.t) (content : option string) (t : list Event) : Prop :=
  exists first_response middle request final,
    t = (Invoked first first_response :: middle ++ [Invoked request final])%list
    /\ Request.model request = deployment_name
    /\ Request.tools request = None
    /\ Request.tool_choice request = None
    /\ content = ChatMessage.content final.

(** ** More model services used as examples *)

(** A model that calls [execute_query] at once, and answers when it is
    asked without tools. *)
Definition direct_execute_arguments : Arguments.t :=
  Arguments.mk empty_dict (Some (VStr "SELECT department, amount FROM budgets")).

Definition direct_execute_call : ToolCall.t :=
  ToolCall.mk "call_1" "execute_query" (Some direct_execute_arguments).

Definition direct_execute_model (request : Request.t) (w : unit) : ChatMessage.t * unit :=
  match Request.tools request with
  | Some _ => (ChatMessage.mk None (Some [direct_execute_call]), w)
  | None => (ChatMessage.mk (Some "Engineering has 100, Marketing 50.") None, w)
  end.


(** A model that calls [query_database] for the table [budgets] and then,
    asked again, answers in words without calling a tool. *)
Definition structure_only_arguments : Arguments.t :=
  Arguments.mk (dict [ITable (VStr "budgets"); ILimit (VInt 3)]) None.

Definition structure_only_call : ToolCall.t :=
  ToolCall.mk "call_1" "query_database" (Some structure_only_arguments).

Definition structure_only_model (request : Request.t) (w : unit) : ChatMessage.t * unit :=
  match Request.tools request, Request.messages request with
  | Some _, [_; _] => (ChatMessage.mk None (Some [structure_only_call]), w)
  | Some _, _ => (ChatMessage.mk (Some "The query is ready.") None, w)
  | None, _ => (ChatMessage.mk (Some "I could not run the query.") None, w)
  end.

(** A model whose tool call carries arguments that are no JSON text. *)
Definition garbled_call : ToolCall.t := ToolCall.mk "call_1" "query_database" None.

Definition garbled_model (request : Request.t) (w : unit) : ChatMessage.t * unit :=
  (ChatMessage.mk None (Some [garbled_call]), w).
Example build_query_budgets_number :
  build_query (dict [ITable (VStr "budgets"); IColumns ["department"; "amount"];
                     IConditions [Condition.mk (Some (VStr "year")) (Some (VStr "=")) (Some (VInt 2023))]])
  = "SELECT department, amount FROM budgets WHERE year = 2023".
Proof. reflexivity. Qed.

Example build_query_join :
  build_query (dict [ITable (VStr "a");
                     IJoins [Join.mk (Some (VStr "b")) (Some "left")
                               (Some (On.mk (Some (VStr "id")) (Some (VStr "a_id"))))]])
  = "SELECT * FROM a LEFT JOIN b ON a.id = b.a_id".
Proof. reflexivity. Qed.

(** ** Strings and loops *)

Lemma append_assoc (a b c : string) : (a ++ b) ++ c = a ++ (b ++ c).
Proof.
  induction a as [|ch a IH]; simpl; [reflexivity|].
  now rewrite IH.
Qed.

Lemma append_empty_r (a : string) : a ++ "" = a.
Proof.
  induction a as [|ch a IH]; simpl; [reflexivity|].
  now rewrite IH.
Qed.

Lemma startswith_append (p s : string) : startswith (p ++ s) p = true.
Proof.
  unfold startswith.
  induction p as [|ch p IH]; simpl.
  - now destruct s.
  - destruct (ascii_dec ch ch) as [_|ne]; [exact IH | now elim ne].
Qed.

Lemma startswith_append3 (a b c s : string) :
  startswith (a ++ b ++ c ++ s) (a ++ b ++ c) = true.
Proof.
  rewrite <- (append_assoc b c s), <- (append_assoc a (b ++ c) s).
  apply startswith_append.
Qed.

Lemma startswith_append4 (a b c d s : string) :
  startswith (a ++ b ++ c ++ d ++ s) (a ++ b ++ c ++ d) = true.
Proof.
  rewrite <- (append_assoc c d s).
  apply startswith_append3.
Qed.

Lemma for_each_accumulate_string {A : Type} (f : A -> string) (l : list A) (init : string) :
  for_each l init (fun sql x => sql ++ f x) = init ++ String.concat "" (map f l).
Proof.
  unfold for_each.
  revert init.
  induction l as [|x l IH]; intros init; simpl.
  - now rewrite append_empty_r.
  - rewrite IH, append_assoc.
    destruct l as [|y l]; simpl; [now rewrite append_empty_r | reflexivity].
Qed.

Lemma for_each_list_append {A B : Type} (f : A -> B) (l : list A) (init : list B) :
  for_each l init (fun acc x => list_append acc (f x)) = (init ++ map f l)%list.
Proof.
  unfold for_each, list_append.
  revert init.
  induction l as [|x l IH]; intros init; simpl.
  - now rewrite app_nil_r.
  - now rewrite IH, <- app_assoc.
Qed.

Lemma formatted_value_eq (value : Value) :
  (if isinstance_str value && negb (startswith (lower (str value)) "select")
   then "'" ++ str value ++ "'"
   else str value) = format_value value.
Proof.
  destruct value as [| b | z | s]; simpl; try reflexivity.
  now destruct (startswith (lower s) "select").
Qed.

(** ** The compilers, clause by clause *)

Lemma for_each_ext {A S : Type} (f g : S -> A -> S) (l : list A) (init : S) :
  (forall acc x, f acc x = g acc x) -> for_each l init f = for_each l init g.
Proof.
  intros Hfg. unfold for_each. revert init.
  induction l as [|x l IH]; intros init; simpl; [reflexivity|].
  now rewrite Hfg, IH.
Qed.

Lemma joins_step (table : Value) (js : option (list Join.t)) (sql : string)
    (body : string -> Join.t -> string) :
  (forall acc j, body acc j = acc ++ render_join table j) ->
  match present_nonempty js with
  | Some js => for_each js sql body
  | None => sql
  end = sql ++ String.concat "" (map (render_join table) (get js [])).
Proof.
  intros Hbody.
  destruct js as [[|j js]|]; simpl present_nonempty; cbv iota.
  - simpl. now rewrite append_empty_r.
  - rewrite (for_each_ext _ _ _ _ Hbody).
    now rewrite for_each_accumulate_string.
  - simpl. now rewrite append_empty_r.
Qed.

Lemma conditions_step (cs : option (list Condition.t)) (sql : string)
    (body : list string -> Condition.t -> list string) :
  (forall acc c, body acc c = list_append acc (render_condition c)) ->
  match present_nonempty cs with
  | Some cs => sql ++ " WHERE " ++ join " AND " (for_each cs [] body)
  | None => sql
  end = sql ++ match get cs [] with
               | [] => ""
               | cs => " WHERE " ++ join " AND " (map render_condition cs)
               end.
Proof.
  intros Hbody.
  destruct cs as [[|c cs]|]; simpl present_nonempty; cbv iota.
  - simpl. now rewrite append_empty_r.
  - rewrite (for_each_ext _ _ _ _ Hbody).
    now rewrite for_each_list_append.
  - simpl. now rewrite append_empty_r.
Qed.

Lemma group_by_step (gs : option (list string)) (sql : string) :
  match present_nonempty gs with
  | Some gs => sql ++ " GROUP BY " ++ join ", " gs
  | None => sql
  end = sql ++ match get gs [] with
               | [] => ""
               | gs => " GROUP BY " ++ join ", " gs
               end.
Proof.
  destruct gs as [[|g gs]|]; simpl present_nonempty; cbv iota;
    simpl get; cbv iota; now rewrite ?append_empty_r.
Qed.

Lemma order_by_step (os : option (list OrderSpec.t)) (sql : string)
    (body : list string -> OrderSpec.t -> list string) :
  (forall acc o, body acc o = list_append acc (render_order o)) ->
  match present_nonempty os with
  | Some os => sql ++ " ORDER BY " ++ join ", " (for_each os [] body)
  | None => sql
  end = sql ++ match get os [] with
               | [] => ""
               | os => " ORDER BY " ++ join ", " (map render_order os)
               end.
Proof.
  intros Hbody.
  destruct os as [[|o os]|]; simpl present_nonempty; cbv iota.
  - simpl. now rewrite append_empty_r.
  - rewrite (for_each_ext _ _ _ _ Hbody).
    now rewrite for_each_list_append.
  - simpl. now rewrite append_empty_r.
Qed.

Lemma limit_step (lim : option Value) (sql : string) :
  match present_truthy lim with
  | Some n => sql ++ " LIMIT " ++ str n
  | None => sql
  end = sql ++ match lim with
               | Some n => if truthy n then " LIMIT " ++ str n else ""
               | None => ""
               end.
Proof.
  destruct lim as [n|]; simpl present_truthy.
  - destruct (truthy n); now rewrite ?append_empty_r.
  - now rewrite append_empty_r.
Qed.

Lemma condition_body_eq (acc : list string) (c : Condition.t) :
  list_append acc
    (str (get (Condition.column c) (VStr "")) ++ " "
       ++ str (get (Condition.operator c) (VStr "=")) ++ " "
       ++ (if isinstance_str (get (Condition.value c) (VStr ""))
              && negb (startswith (lower (str (get (Condition.value c) (VStr "")))) "select")
           then "'" ++ str (get (Condition.value c) (VStr "")) ++ "'"
           else str (get (Condition.value c) (VStr ""))))
  = list_append acc (render_condition c).
Proof.
  unfold render_condition. now rewrite formatted_value_eq.
Qed.

Ltac clause_steps table :=
  rewrite limit_step;
  rewrite order_by_step by reflexivity;
  rewrite group_by_step;
  rewrite conditions_step by (intros; apply condition_body_eq);
  rewrite (joins_step table) by reflexivity;
  rewrite !append_assoc.

Lemma build_sql_query_clauses (qs : QueryStructure.t) :
  build_sql_query qs = compile_clauses qs.
Proof.
  destruct qs as [t cols conds js gs os lim].
  unfold build_sql_query, compile_clauses, select_clause, projection, joins_clause,
    where_clause, group_by_clause, order_by_clause, limit_clause.
  cbn [QueryStructure.table QueryStructure.columns QueryStructure.conditions
       QueryStructure.joins QueryStructure.group_by QueryStructure.order_by
       QueryStructure.limit].
  cbv zeta.
  clause_steps (get t (VStr "")).
  reflexivity.
Qed.

Lemma build_query_clauses (qs : QueryStructure.t) :
  build_query qs =
    if truthy (get (QueryStructure.table qs) (VStr ""))
    then compile_clauses qs
    else "-- Error: No table specified".
Proof.
  rewrite <- build_sql_query_clauses.
  destruct qs as [t cols conds js gs os lim].
  unfold build_query, build_sql_query.
  cbn [QueryStructure.table QueryStructure.columns QueryStructure.conditions
       QueryStructure.joins QueryStructure.group_by QueryStructure.order_by
       QueryStructure.limit].
  cbv zeta.
  destruct (truthy (get t (VStr ""))); reflexivity.
Qed.

(** ** Dicts do not depend on the order of their items *)

Lemma setitem_comm (d : QueryStructure.t) (i j : Item) :
  item_key i <> item_key j ->
  setitem (setitem d i) j = setitem (setitem d j) i.
Proof.
  intros Hkey.
  destruct i, j; simpl in *; try reflexivity; now elim Hkey.
Qed.

Lemma for_each_setitem_permutation (items items' : list Item) :
  Permutation items items' ->
  NoDup (map item_key items) ->
  forall d, for_each items d setitem = for_each items' d setitem.
Proof.
  unfold for_each.
  induction 1 as [| x l l' Hperm IH | x y l | l l' l'' H1 IH1 H2 IH2];
    intros Hnodup d; simpl.
  - reflexivity.
  - apply IH. now inversion Hnodup.
  - rewrite setitem_comm; [reflexivity|].
    simpl in Hnodup. inversion Hnodup as [|? ? Hnotin _]; subst.
    intros Heq. apply Hnotin. left. now symmetry.
  - rewrite IH1 by assumption.
    apply IH2.
    eapply Permutation_NoDup; [|exact Hnodup].
    now apply Permutation_map.
Qed.

Lemma dict_permutation (items items' : list Item) :
  NoDup (map item_key items) -> Permutation items items' ->
  dict items = dict items'.
Proof.
  intros Hnodup Hperm. unfold dict.
  now apply for_each_setitem_permutation.
Qed.

Lemma truthy_nonempty_string (t : string) : t <> "" -> truthy (VStr t) = true.
Proof.
  intros Hne. simpl. now apply negb_true_iff, String.eqb_neq.
Qed.

Lemma build_query_valid (qs : QueryStructure.t) (t : string) :
  QueryStructure.table qs = Some (VStr t) -> t <> "" ->
  build_query qs = compile_clauses qs.
Proof.
  intros Htable Hne.
  rewrite build_query_clauses, Htable. simpl get.
  now rewrite truthy_nonempty_string.
Qed.

Lemma select_clause_table (qs : QueryStructure.t) (t : string) :
  QueryStructure.table qs = Some (VStr t) ->
  select_clause qs = "SELECT " ++ projection qs ++ " FROM " ++ t.
Proof.
  intros Htable. unfold select_clause. now rewrite Htable.
Qed.

(** ** The claims on the compilers *)

(** C1. With a non-empty string as table, whatever the order in which the
    fields of the structure were given, both compilers return
    [SELECT <columns> FROM <table>] followed by the JOIN clauses, the WHERE
    clause, the GROUP BY clause, the ORDER BY clause and the LIMIT clause, in
    that order; the clauses after the joins are each empty or opened by their
    keyword. *)
Theorem compile_clause_order (items items' : list Item) (t : string) :
  NoDup (map item_key items) ->
  Permutation items items' ->
  QueryStructure.table (dict items) = Some (VStr t) ->
  t <> "" ->
  let qs := dict items in
  let sql := "SELECT " ++ projection qs ++ " FROM " ++ t
               ++ joins_clause qs ++ where_clause qs ++ group_by_clause qs
               ++ order_by_clause qs ++ limit_clause qs in
  build_query (dict items') = sql
  /\ build_sql_query (dict items') = sql
  /\ startswith (build_query (dict items')) ("SELECT " ++ projection qs ++ " FROM " ++ t) = true
  /\ (forall j, startswith (render_join (VStr t) j)
                  (" " ++ upper (get (Join.type j) "INNER") ++ " JOIN ") = true)
  /\ (where_clause qs = "" \/ startswith (where_clause qs) " WHERE " = true)
  /\ (group_by_clause qs = "" \/ startswith (group_by_clause qs) " GROUP BY " = true)
  /\ (order_by_clause qs = "" \/ startswith (order_by_clause qs) " ORDER BY " = true)
  /\ (limit_clause qs = "" \/ startswith (limit_clause qs) " LIMIT " = true).
Proof.
  intros Hnodup Hperm Htable Hne qs sql.
  rewrite <- (dict_permutation items items' Hnodup Hperm). fold qs.
  assert (Hsql : compile_clauses qs = sql).
  { unfold compile_clauses, sql.
    rewrite (select_clause_table qs t Htable).
    now rewrite !append_assoc. }
  assert (Hq : build_query qs = sql).
  { now rewrite (build_query_valid qs t Htable Hne). }
  repeat split.
  - exact Hq.
  - now rewrite build_sql_query_clauses.
  - rewrite Hq. unfold sql. apply startswith_append4.
  - intros j. unfold render_join. apply startswith_append3.
  - unfold where_clause.
    destruct (get (QueryStructure.conditions qs) []); [now left | right; apply startswith_append].
  - unfold group_by_clause.
    destruct (get (QueryStructure.group_by qs) []); [now left | right; apply startswith_append].
  - unfold order_by_clause.
    destruct (get (QueryStructure.order_by qs) []); [now left | right; apply startswith_append].
  - unfold limit_clause.
    destruct (QueryStructure.limit qs) as [n|]; [|now left].
    destruct (truthy n); [right; apply startswith_append | now left].
Qed.

Lemma compile_clause_order_witness :
  build_query (dict [ITable (VStr "t"); ILimit (VInt 5); IGroupBy ["a"]])
  = "SELECT * FROM t GROUP BY a LIMIT 5".
Proof.
  refine (proj1 (compile_clause_order
                   [ILimit (VInt 5); IGroupBy ["a"]; ITable (VStr "t")]
                   [ITable (VStr "t"); ILimit (VInt 5); IGroupBy ["a"]]
                   "t" _ _ _ _)).
  - repeat constructor; simpl; intuition discriminate.
  - apply Permutation_sym, (Permutation_cons_append [ILimit (VInt 5); IGroupBy ["a"]]).
  - reflexivity.
  - discriminate.
Defined.

(** [build_query] answers a structure without a table, or with the empty
    string as table, with its diagnostic comment. *)
Lemma build_query_no_table (qs : QueryStructure.t) :
  QueryStructure.table qs = None \/ QueryStructure.table qs = Some (VStr "") ->
  build_query qs = "-- Error: No table specified".
Proof.
  intros [Htable | Htable]; rewrite build_query_clauses, Htable; reflexivity.
Qed.

(** C2. [build_sql_query] has no guard on the table: for the empty string as
    table, and for an absent table, it returns a SELECT statement with nothing
    after FROM, where [build_query] returns its diagnostic comment.  For the
    [None] that [process_question] stores under [table] when the arguments
    have no table, it returns a statement on a table named [None]. *)
Theorem build_sql_query_empty_table :
  build_sql_query (dict [ITable (VStr "")]) = "SELECT * FROM "
  /\ build_sql_query (dict []) = "SELECT * FROM "
  /\ build_sql_query (dict [ITable VNone]) = "SELECT * FROM None"
  /\ build_query (dict [ITable (VStr "")]) = "-- Error: No table specified"
  /\ build_query (dict []) = "-- Error: No table specified".
Proof.
  repeat split; reflexivity.
Qed.

(** Without a [columns] key the projection is [*]. *)
Lemma projection_absent_columns (qs : QueryStructure.t) (t : string) :
  QueryStructure.table qs = Some (VStr t) -> t <> "" ->
  QueryStructure.columns qs = None ->
  startswith (build_query qs) ("SELECT * FROM " ++ t) = true
  /\ startswith (build_sql_query qs) ("SELECT * FROM " ++ t) = true.
Proof.
  intros Htable Hne Hcols.
  rewrite build_sql_query_clauses, (build_query_valid qs t Htable Hne).
  unfold compile_clauses.
  rewrite (select_clause_table qs t Htable).
  unfold projection. rewrite Hcols. simpl get. simpl join.
  change ("SELECT " ++ "*" ++ " FROM " ++ t) with ("SELECT * FROM " ++ t).
  split; apply startswith_append.
Qed.

(** C3. For the empty list of columns both compilers return a statement with
    an empty projection, not [SELECT * FROM t]. *)
Theorem build_query_empty_columns :
  build_query (dict [ITable (VStr "t"); IColumns []]) = "SELECT  FROM t"
  /\ build_sql_query (dict [ITable (VStr "t"); IColumns []]) = "SELECT  FROM t".
Proof.
  split; reflexivity.
Qed.

(** C4. In both compilers a condition is rendered as column, operator and
    value separated by spaces; a string value is wrapped in single quotes
    unless its lower-cased form starts with [select], when it is kept as it
    is; a value that is not a string is rendered by [str], without quotes;
    and the statement carries [ WHERE ] followed by the conditions joined by
    [ AND ] exactly when there is at least one condition. *)
Theorem conditions_rendering (qs : QueryStructure.t) (t : string) :
  QueryStructure.table qs = Some (VStr t) ->
  t <> "" ->
  let cs := get (QueryStructure.conditions qs) [] in
  let rendered (c : Condition.t) :=
    str (get (Condition.column c) (VStr "")) ++ " "
      ++ str (get (Condition.operator c) (VStr "=")) ++ " "
      ++ match get (Condition.value c) (VStr "") with
         | VStr s => if startswith (lower s) "select" then s else "'" ++ s ++ "'"
         | v => str v
         end in
  let where_ :=
    match cs with
    | [] => ""
    | _ :: _ => " WHERE " ++ join " AND " (map rendered cs)
    end in
  let sql :=
    select_clause qs ++ joins_clause qs ++ where_
      ++ group_by_clause qs ++ order_by_clause qs ++ limit_clause qs in
  build_query qs = sql /\ build_sql_query qs = sql.
Proof.
  intros Htable Hne cs rendered where_ sql.
  rewrite build_sql_query_clauses, (build_query_valid qs t Htable Hne).
  assert (Hwhere : where_clause qs = where_).
  { unfold where_clause, where_. fold cs.
    destruct cs as [|c cs']; [reflexivity|].
    do 2 f_equal. apply map_ext. intros c'.
    unfold render_condition, format_value, rendered.
    now destruct (get (Condition.value c') (VStr "")). }
  unfold compile_clauses, sql.
  now rewrite Hwhere.
Qed.

Lemma conditions_rendering_witness :
  build_query (dict [ITable (VStr "t");
                     IConditions [Condition.mk (Some (VStr "department")) (Some (VStr "="))
                                    (Some (VStr "Engineering"));
                                  Condition.mk (Some (VStr "id")) (Some (VStr "IN"))
                                    (Some (VStr "SELECT id FROM x"));
                                  Condition.mk (Some (VStr "n")) (Some (VStr ">"))
                                    (Some (VInt 5))]])
  = "SELECT * FROM t WHERE department = 'Engineering' AND id IN SELECT id FROM x AND n > 5".
Proof.
  refine (proj1 (conditions_rendering _ "t" _ _)).
  - reflexivity.
  - discriminate.
Defined.


(** C5, as the code has it: the year is a string in the structure, and is
    quoted like every string value. *)
Theorem build_query_budgets :
  build_query budgets
  = "SELECT department, amount FROM budgets WHERE year = '2023' AND department = 'Engineering'".
Proof. reflexivity. Qed.

(** C5, as the claim states it, does not hold. *)
Lemma build_query_budgets_unquoted_year_fails :
  build_query budgets
  <> "SELECT department, amount FROM budgets WHERE year = 2023 AND department = 'Engineering'".
Proof.
  intros Heq. vm_compute in Heq. discriminate Heq.
Qed.

(** C9. On a structure whose table is a non-empty string the two compilers
    return the same statement. *)
Theorem build_query_build_sql_query (qs : QueryStructure.t) (t : string) :
  QueryStructure.table qs = Some (VStr t) ->
  t <> "" ->
  build_query qs = build_sql_query qs.
Proof.
  intros Htable Hne.
  now rewrite build_sql_query_clauses, (build_query_valid qs t Htable Hne).
Qed.

Lemma build_query_build_sql_query_witness :
  build_query budgets = build_sql_query budgets.
Proof.
  apply (build_query_build_sql_query budgets "budgets").
  - reflexivity.
  - discriminate.
Defined.


(** C10. The compilers are total on conditions that leave out the operator
    or the value: where the structure has conditions, the statement has them
    after [ WHERE ], an absent operator rendered as [=] and an absent value
    rendered as two single quotes. *)
Theorem condition_defaults (qs : QueryStructure.t) (t : string)
    (c : Condition.t) (cs : list Condition.t) :
  QueryStructure.table qs = Some (VStr t) ->
  t <> "" ->
  QueryStructure.conditions qs = Some (c :: cs) ->
  let sql :=
    select_clause qs ++ joins_clause qs
      ++ (" WHERE " ++ join " AND " (map render_condition_defaults (c :: cs)))
      ++ group_by_clause qs ++ order_by_clause qs ++ limit_clause qs in
  build_query qs = sql /\ build_sql_query qs = sql.
Proof.
  intros Htable Hne Hconds sql.
  rewrite build_sql_query_clauses, (build_query_valid qs t Htable Hne).
  assert (Hrender : forall c', render_condition c' = render_condition_defaults c').
  { intros c'. unfold render_condition, render_condition_defaults.
    destruct (Condition.operator c'), (Condition.value c'); reflexivity. }
  assert (Hwhere : where_clause qs
                   = " WHERE " ++ join " AND " (map render_condition_defaults (c :: cs))).
  { unfold where_clause. rewrite Hconds. simpl get. cbv iota.
    do 2 f_equal. now apply map_ext. }
  unfold compile_clauses, sql.
  now rewrite Hwhere.
Qed.


Lemma condition_defaults_witness :
  build_query (dict [ITable (VStr "t"); IConditions sparse_conditions])
  = "SELECT * FROM t WHERE a = '' AND b = 3 AND c < ''".
Proof.
  refine (proj1 (condition_defaults
                   (dict [ITable (VStr "t"); IConditions sparse_conditions])
                   "t" (Condition.mk (Some (VStr "a")) None None)
                   (tl sparse_conditions) _ _ _)).
  - reflexivity.
  - discriminate.
  - reflexivity.
Defined.

(** ** The executor *)

Lemma row_setitem_keys (d : ResultRow) (k : string) (v : Value) :
  map fst (row_setitem d k v)
  = if existsb (String.eqb k) (map fst d) then map fst d else list_append (map fst d) k.
Proof.
  unfold list_append.
  induction d as [|[k' v'] d IH]; simpl; [reflexivity|].
  rewrite (String.eqb_sym k k').
  destruct (String.eqb k' k); simpl; [reflexivity|].
  rewrite IH. now destruct (existsb (String.eqb k) (map fst d)).
Qed.

Lemma row_dict_keys_from (pairs : list (string * Value)) (d : ResultRow) :
  map fst (for_each pairs d (fun d kv => row_setitem d (fst kv) (snd kv)))
  = for_each (map fst pairs) (map fst d) (fun seen k =>
      if existsb (String.eqb k) seen then seen else list_append seen k).
Proof.
  unfold for_each. revert d.
  induction pairs as [|[k v] pairs IH]; intros d; simpl; [reflexivity|].
  now rewrite IH, row_setitem_keys.
Qed.

Lemma row_dict_keys (pairs : list (string * Value)) :
  map fst (row_dict pairs) = first_occurrences (map fst pairs).
Proof.
  apply (row_dict_keys_from pairs []).
Qed.

Lemma row_setitem_fresh (d : ResultRow) (k : string) (v : Value) :
  ~ In k (map fst d) -> row_setitem d k v = (d ++ [(k, v)])%list.
Proof.
  induction d as [|[k' v'] d IH]; simpl; intros Hnotin; [reflexivity|].
  destruct (String.eqb_spec k' k) as [Heq | Hne].
  - exfalso. apply Hnotin. now left.
  - rewrite IH; [reflexivity|]. intros Hin. apply Hnotin. now right.
Qed.

Lemma row_dict_distinct_from (pairs : list (string * Value)) (d : ResultRow) :
  NoDup (map fst d ++ map fst pairs)%list ->
  for_each pairs d (fun d kv => row_setitem d (fst kv) (snd kv)) = (d ++ pairs)%list.
Proof.
  unfold for_each. revert d.
  induction pairs as [|[k v] pairs IH]; intros d Hnodup; simpl.
  - now rewrite app_nil_r.
  - simpl in Hnodup.
    rewrite row_setitem_fresh.
    + rewrite IH; [now rewrite <- app_assoc|].
      rewrite map_app. simpl. now rewrite <- app_assoc.
    + apply NoDup_remove_2 in Hnodup.
      intros Hin. apply Hnodup. apply in_or_app. now left.
Qed.

Lemma row_dict_distinct (pairs : list (string * Value)) :
  NoDup (map fst pairs) -> row_dict pairs = pairs.
Proof.
  intros Hnodup. apply (row_dict_distinct_from pairs []). exact Hnodup.
Qed.

Lemma row_get_setitem (d : ResultRow) (k k' : string) (v : Value) :
  row_get (row_setitem d k v) k' = if String.eqb k k' then Some v else row_get d k'.
Proof.
  induction d as [|[k0 v0] d IH]; simpl; [reflexivity|].
  destruct (String.eqb_spec k0 k) as [-> | Hne]; simpl.
  - now destruct (String.eqb k k').
  - rewrite IH.
    destruct (String.eqb_spec k0 k') as [-> | Hne']; [|reflexivity].
    destruct (String.eqb_spec k k') as [-> | _]; [now elim Hne | reflexivity].
Qed.

Lemma row_get_app (d : ResultRow) (k k' : string) (v : Value) :
  row_get (d ++ [(k, v)])%list k'
  = match row_get d k' with
    | Some x => Some x
    | None => if String.eqb k k' then Some v else None
    end.
Proof.
  induction d as [|[k0 v0] d IH]; simpl; [reflexivity|].
  now destruct (String.eqb k0 k').
Qed.

Lemma row_get_dict_from (pairs : list (string * Value)) (d : ResultRow) (k : string) :
  row_get (for_each pairs d (fun d kv => row_setitem d (fst kv) (snd kv))) k
  = match row_get (rev pairs) k with
    | Some v => Some v
    | None => row_get d k
    end.
Proof.
  unfold for_each. revert d.
  induction pairs as [|[k0 v0] pairs IH]; intros d; simpl; [reflexivity|].
  rewrite IH, row_get_app, row_get_setitem.
  destruct (row_get (rev pairs) k); [reflexivity|].
  now destruct (String.eqb k0 k).
Qed.

(** In the dict of a list of pairs a key holds the value of its last pair. *)
Lemma row_get_dict (pairs : list (string * Value)) (k : string) :
  row_get (row_dict pairs) k = row_get (rev pairs) k.
Proof.
  unfold row_dict. rewrite row_get_dict_from.
  now destruct (row_get (rev pairs) k).
Qed.

Lemma zip_keys {A B : Type} (a : list A) (b : list B) :
  length b = length a -> map fst (zip a b) = a.
Proof.
  unfold zip. revert b.
  induction a as [|x a IH]; intros [|y b] Hlen; simpl in *; try discriminate; [reflexivity|].
  f_equal. apply IH. now injection Hlen.
Qed.

Lemma zip_keys_subset {A B : Type} (a : list A) (b : list B) (x : A) :
  In x (map fst (zip a b)) -> In x a.
Proof.
  unfold zip. intros Hin.
  apply in_map_iff in Hin as ([x' y] & <- & Hin).
  now apply in_combine_l in Hin.
Qed.

Lemma zip_keys_NoDup {A B : Type} (a : list A) (b : list B) :
  NoDup a -> NoDup (map fst (zip a b)).
Proof.
  unfold zip. revert b.
  induction a as [|x a IH]; intros b Hnodup; [constructor|].
  destruct b as [|y b]; [constructor|].
  inversion Hnodup as [|? ? Hnotin Hrest]; subst.
  simpl. constructor; [|now apply IH].
  intros Hin. apply Hnotin. now apply (zip_keys_subset a b).
Qed.

Lemma row_get_zip (columns : list string) (row : Row) (i : nat) (k : string) :
  NoDup columns ->
  nth_error columns i = Some k ->
  row_get (zip columns row) k = nth_error row i.
Proof.
  unfold zip. revert row i.
  induction columns as [|c columns IH]; intros row i Hnodup Hk.
  - now destruct i.
  - inversion Hnodup as [|? ? Hnotin Hrest]; subst.
    destruct i as [|i]; simpl in Hk.
    + injection Hk as ->.
      destruct row as [|v row]; simpl; [reflexivity|].
      now rewrite String.eqb_refl.
    + destruct row as [|v row]; simpl.
      * reflexivity.
      * destruct (String.eqb_spec c k) as [-> | _].
        -- elim Hnotin. now apply (nth_error_In columns i).
        -- now apply IH.
Qed.

Section Executor.

Variable World : Type.
Variable conn_execute : Value -> World -> result Cursor.t * World.

Lemma agents_execute_query_same (query : Value) (s : State World) :
  SimplifiedDBAgent_execute_query World conn_execute query s
  = DatabaseQueryAgent_execute_query World conn_execute query s.
Proof. reflexivity. Qed.

Lemma execute_query_returns (query : Value) (s : State World) :
  exists rows s',
    DatabaseQueryAgent_execute_query World conn_execute query s = (Ok rows, s').
Proof.
  unfold DatabaseQueryAgent_execute_query, try_except, bind, execute, lift, iterate,
    ret, raise.
  destruct (conn_execute query (world s)) as [[c|e] w1]; simpl; [|eauto].
  destruct (Cursor.fetchall c) as [rows|e]; simpl; [|eauto].
  destruct (conn_execute query w1) as [[c'|e] w2]; simpl; [|eauto].
  destruct (Cursor.description c') as [d|]; simpl; eauto.
Qed.

Lemma execute_query_failure (query : Value) (s : State World) (e : string) (w' : World) :
  engine_failure World conn_execute query (world s) e w' ->
  exists t,
    DatabaseQueryAgent_execute_query World conn_execute query s
    = (Ok [[("error", VStr e)]], mkState w' t).
Proof.
  unfold DatabaseQueryAgent_execute_query, try_except, bind, execute, lift, iterate,
    ret, raise.
  intros Hfail.
  destruct Hfail as [e w1 H1 | c e w1 H1 Hf | c rows e w1 w2 H1 Hf H2
                    | c c' rows w1 w2 H1 Hf H2 Hd].
  - rewrite H1. simpl. eauto.
  - rewrite H1. simpl. rewrite Hf. simpl. eauto.
  - rewrite H1. simpl. rewrite Hf. simpl. rewrite H2. simpl. eauto.
  - rewrite H1. simpl. rewrite Hf. simpl. rewrite H2. simpl. rewrite Hd. simpl. eauto.
Qed.

Lemma execute_query_success (query : Value) (s : State World)
    (rows : list Row) (columns : list string) (w' : World) :
  engine_success World conn_execute query (world s) rows columns w' ->
  exists t,
    DatabaseQueryAgent_execute_query World conn_execute query s
    = (Ok (map (fun row => row_dict (zip columns row)) rows), mkState w' t).
Proof.
  unfold DatabaseQueryAgent_execute_query, try_except, bind, execute, lift, iterate,
    ret, raise.
  intros Hok.
  destruct Hok as [c c' rows d w1 w2 H1 Hf H2 Hd].
  rewrite H1. simpl. rewrite Hf. simpl. rewrite H2. simpl. rewrite Hd. simpl. eauto.
Qed.

Lemma engine_outcome (query : Value) (w : World) :
  (exists e w', engine_failure World conn_execute query w e w')
  \/ (exists rows columns w', engine_success World conn_execute query w rows columns w').
Proof.
  destruct (conn_execute query w) as [[c|e] w1] eqn:H1.
  2:{ left. exists e, w1. now apply failure_execute. }
  destruct (Cursor.fetchall c) as [rows|e] eqn:Hf.
  2:{ left. exists e, w1. now apply (failure_fetchall _ _ _ _ c). }
  destruct (conn_execute query w1) as [[c'|e] w2] eqn:H2.
  2:{ left. exists e, w2. now apply (failure_execute_again _ _ _ _ c rows e w1). }
  destruct (Cursor.description c') as [d|] eqn:Hd.
  - right. exists rows, (map fst d), w2. now apply (success _ _ _ _ c c' rows d w1).
  - left. eexists _, w2. now apply (failure_description _ _ _ _ c c' rows w1).
Qed.

Lemma row_dict_keys_distinct (columns : list string) (row : Row) :
  NoDup columns -> length row = length columns ->
  map fst (row_dict (combine columns row)) = columns.
Proof.
  intros Hnodup Hlen.
  rewrite row_dict_distinct by now apply (zip_keys_NoDup columns row).
  now apply (zip_keys columns row).
Qed.

(** C6, as the code has it.  [execute_query] never raises: it returns rows
    from every state, in both agents alike, and the engine either fails in
    one of the listed ways or succeeds.  When the engine fails, the rows are
    the one row [{"error": message}], where the message is the text of the
    exception as it is: nothing makes it non-empty.  When the engine
    succeeds, the rows are the fetched tuples, each as the dict of the
    column names paired with the values of the tuple: a name holds the
    value of the last column of that name; for a tuple as long as the
    columns the keys are the column names, each once at its first place;
    and for distinct column names the items are the columns paired with the
    values in the order of the columns, so the name of the i-th column
    holds the i-th value. *)
Theorem execute_query_never_raises (query : Value) (s : State World) :
  (exists rows s',
      DatabaseQueryAgent_execute_query World conn_execute query s = (Ok rows, s'))
  /\ SimplifiedDBAgent_execute_query World conn_execute query s
     = DatabaseQueryAgent_execute_query World conn_execute query s
  /\ ((exists e w', engine_failure World conn_execute query (world s) e w')
      \/ (exists rows columns w',
             engine_success World conn_execute query (world s) rows columns w'))
  /\ (forall e w',
        engine_failure World conn_execute query (world s) e w' ->
        exists t,
          DatabaseQueryAgent_execute_query World conn_execute query s
          = (Ok [[("error", VStr e)]], mkState w' t))
  /\ (forall rows columns w',
        engine_success World conn_execute query (world s) rows columns w' ->
        (exists t,
            DatabaseQueryAgent_execute_query World conn_execute query s
            = (Ok (map (fun row => row_dict (combine columns row)) rows), mkState w' t))
        /\ forall row,
             (forall k, row_get (row_dict (combine columns row)) k
                        = row_get (rev (combine columns row)) k)
             /\ (length row = length columns ->
                 map fst (row_dict (combine columns row)) = first_occurrences columns)
             /\ (NoDup columns ->
                 row_dict (combine columns row) = combine columns row)
             /\ (NoDup columns -> length row = length columns ->
                 map fst (row_dict (combine columns row)) = columns)
             /\ (NoDup columns ->
                 forall i k, nth_error columns i = Some k ->
                   row_get (row_dict (combine columns row)) k = nth_error row i)).
Proof.
  split; [apply execute_query_returns|].
  split; [apply agents_execute_query_same|].
  split; [apply engine_outcome|].
  split; [intros e w' Hfail; now apply execute_query_failure|].
  intros rows columns w' Hok. split; [now apply execute_query_success|].
  intros row.
  split; [intros k; apply row_get_dict|].
  split.
  { intros Hlen. rewrite row_dict_keys. f_equal. now apply (zip_keys columns row). }
  split.
  { intros Hnodup. apply row_dict_distinct. now apply (zip_keys_NoDup columns row). }
  split; [apply row_dict_keys_distinct|].
  intros Hnodup i k Hk.
  rewrite row_dict_distinct by now apply (zip_keys_NoDup columns row).
  now apply (row_get_zip columns row).
Qed.

End Executor.

Lemma execute_query_never_raises_witness :
  fst (DatabaseQueryAgent_execute_query unit toy_engine (VStr "SELEC 1") (mkState tt []))
  = Ok [[("error", VStr "Parser Error: syntax error")]]
  /\ fst (DatabaseQueryAgent_execute_query unit toy_engine
            (VStr "SELECT department, amount FROM budgets") (mkState tt []))
     = Ok [[("department", VStr "Engineering"); ("amount", VInt 100)];
           [("department", VStr "Marketing"); ("amount", VInt 50)]].
Proof.
  split.
  - destruct (execute_query_never_raises unit toy_engine (VStr "SELEC 1") (mkState tt []))
      as (_ & _ & _ & Hfail & _).
    destruct (Hfail "Parser Error: syntax error" tt) as (t & Hrun).
    + now apply failure_execute.
    + now rewrite Hrun.
  - destruct (execute_query_never_raises unit toy_engine
                (VStr "SELECT department, amount FROM budgets") (mkState tt []))
      as (_ & _ & _ & _ & Hok).
    destruct (Hok [[VStr "Engineering"; VInt 100]; [VStr "Marketing"; VInt 50]]
                ["department"; "amount"] tt) as ((t & Hrun) & _).
    + exact (success unit toy_engine (VStr "SELECT department, amount FROM budgets") tt
               toy_cursor toy_cursor
               [[VStr "Engineering"; VInt 100]; [VStr "Marketing"; VInt 50]]
               [("department", "VARCHAR"); ("amount", "INTEGER")] tt tt
               eq_refl eq_refl eq_refl eq_refl).
    + now rewrite Hrun.
Defined.

(** C6, as the claim states it, does not hold: the message of the error row
    is the text of the exception, and an exception without a text gives the
    row [{"error": ""}]. *)
Lemma execute_query_error_message_may_be_empty :
  ~ (forall (World : Type) (conn_execute : Value -> World -> result Cursor.t * World)
       (query : Value) (s : State World) (e : string) (w' : World),
        engine_failure World conn_execute query (world s) e w' ->
        exists message s',
          DatabaseQueryAgent_execute_query World conn_execute query s
          = (Ok [[("error", VStr message)]], s')
          /\ message <> "").
Proof.
  intros Hclaim.
  destruct (Hclaim unit silent_engine (VStr "SELEC 1") (mkState tt []) "" tt)
    as (message & s' & Hrun & Hmessage).
  - now apply failure_execute.
  - vm_compute in Hrun. injection Hrun as <- _. now apply Hmessage.
Qed.

(** ** The orchestration loops *)

Section Orchestrator.

Variable World : Type.
Variable create : Request.t -> World -> ChatMessage.t * World.
Variable conn_execute : Value -> World -> result Cursor.t * World.
Variable deployment_name : option string.
Variable schema : Schema.

(** C7, as the code has it.  When the first response carries no tool call,
    [process_question] submits nothing to the engine, invokes the model
    once more, without tools, on the conversation extended by that
    response, and returns no SQL, no rows, and the content of this second
    response as the final answer. *)
Theorem process_question_no_tool_calls (question : string) (s : State World)
    (first final : ChatMessage.t) (w1 w2 : World) :
  create (first_request deployment_name schema question) (world s) = (first, w1) ->
  truthy_option_list (ChatMessage.tool_calls first) = false ->
  create (answer_request deployment_name schema question first) w1 = (final, w2) ->
  process_question World create conn_execute deployment_name schema question s
  = (Ok (Results.mk question None None (ChatMessage.content final)),
     mkState w2
       (trace s ++ [Invoked (first_request deployment_name schema question) first;
                    Invoked (answer_request deployment_name schema question first)
                      final])).
Proof.
  intros Hfirst Hcalls Hfinal.
  unfold process_question, bind, chat_completions_create, ret.
  fold (seed_process_question schema question).
  fold (first_request deployment_name schema question).
  rewrite Hfirst. cbv iota beta. rewrite Hcalls. cbv iota beta.
  unfold list_append.
  fold (answer_request deployment_name schema question first).
  simpl world. rewrite Hfinal. cbv iota beta. simpl trace.
  now rewrite <- app_assoc.
Qed.

End Orchestrator.

Lemma process_question_no_tool_calls_witness :
  process_question unit direct_model toy_engine None [] "What was the budget?" (mkState tt [])
  = (Ok (Results.mk "What was the budget?" None None (Some "I have no data to answer from.")),
     mkState tt
       [Invoked (first_request None [] "What was the budget?")
          (ChatMessage.mk (Some "The budget was 100.") None);
        Invoked (answer_request None [] "What was the budget?"
                   (ChatMessage.mk (Some "The budget was 100.") None))
          (ChatMessage.mk (Some "I have no data to answer from.") None)]).
Proof.
  apply (process_question_no_tool_calls unit direct_model toy_engine None []
           "What was the budget?" (mkState tt [])
           (ChatMessage.mk (Some "The budget was 100.") None)
           (ChatMessage.mk (Some "I have no data to answer from.") None) tt tt).
  - reflexivity.
  - reflexivity.
  - reflexivity.
Defined.

(** C7, as the claim states it, does not hold: the final answer is not the
    content of the first response. *)
Lemma final_answer_not_first_content :
  ~ (forall (World : Type) (create : Request.t -> World -> ChatMessage.t * World)
       (conn_execute : Value -> World -> result Cursor.t * World)
       (deployment_name : option string) (schema : Schema) (question : string)
       (s : State World) (first : ChatMessage.t) (w1 : World),
        create (first_request deployment_name schema question) (world s) = (first, w1) ->
        truthy_option_list (ChatMessage.tool_calls first) = false ->
        exists results s',
          process_question World create conn_execute deployment_name schema question s
          = (Ok results, s')
          /\ Results.sql_query results = None
          /\ Results.query_results results = None
          /\ Results.final_answer results = ChatMessage.content first).
Proof.
  intros Hclaim.
  destruct (Hclaim unit direct_model toy_engine None [] "What was the budget?"
              (mkState tt []) (ChatMessage.mk (Some "The budget was 100.") None) tt
              eq_refl eq_refl)
    as (results & s' & Hrun & _ & _ & Hanswer).
  vm_compute in Hrun.
  injection Hrun as <- _.
  discriminate Hanswer.
Qed.

(** C8. On a first response that calls [query_database],
    [process_user_question] issues its second invocation with automatic tool
    selection, where [process_question] issues it with [execute_query] as the
    forced choice.  In both, the statement submitted to the engine is the one
    of the follow-up tool call, not the one the compiler gave. *)
Theorem process_user_question_second_invocation_auto :
  map Request.tool_choice (invocations (trace (snd run_process_user_question)))
  = [Some Auto; Some Auto; None]
  /\ map Request.tool_choice (invocations (trace (snd run_process_question)))
     = [Some Auto; Some (Function "execute_query"); None]
  /\ executed (trace (snd run_process_user_question))
     = [VStr "SELECT department, amount FROM budgets";
        VStr "SELECT department, amount FROM budgets"]
  /\ executed (trace (snd run_process_question))
     = [VStr "SELECT department, amount FROM budgets";
        VStr "SELECT department, amount FROM budgets"]
  /\ fst run_process_question
     = Ok (Results.mk example_question (Some "SELECT * FROM budgets")
             (Some [[("department", VStr "Engineering"); ("amount", VInt 100)];
                    [("department", VStr "Marketing"); ("amount", VInt 50)]])
             (Some "Engineering has 100, Marketing 50.")).
Proof.
  repeat split; vm_compute; reflexivity.
Qed.

(** ** Rules for the events that a computation adds *)

Section TraceRules.

Variable World : Type.
Variable create : Request.t -> World -> ChatMessage.t * World.
Variable conn_execute : Value -> World -> result Cursor.t * World.

Lemma adds_ret {A : Type} (a : A) (Q : result A -> list Event -> Prop) :
  Q (Ok a) [] -> adds (World := World) (ret a) Q.
Proof.
  intros HQ s. exists []. simpl. now rewrite app_nil_r.
Qed.

Lemma adds_raise {A : Type} (e : string) (Q : result A -> list Event -> Prop) :
  Q (Raise e) [] -> adds (World := World) (raise e) Q.
Proof.
  intros HQ s. exists []. simpl. now rewrite app_nil_r.
Qed.

Lemma adds_lift {A : Type} (r : result A) (Q : result A -> list Event -> Prop) :
  Q r [] -> adds (World := World) (lift r) Q.
Proof.
  intros HQ s. exists []. simpl. now rewrite app_nil_r.
Qed.

Lemma adds_weaken {A : Type} (m : M World A) (Q Q' : result A -> list Event -> Prop) :
  adds m Q -> (forall r t, Q r t -> Q' r t) -> adds m Q'.
Proof.
  intros Hm HQ s. destruct (Hm s) as (t & Htrace & Ht). eauto.
Qed.

Lemma adds_bind {A B : Type} (m : M World A) (k : A -> M World B)
    (Q1 : result A -> list Event -> Prop) (Q : result B -> list Event -> Prop) :
  adds m Q1 ->
  (forall a t1, Q1 (Ok a) t1 -> adds (k a) (fun r t2 => Q r (t1 ++ t2)%list)) ->
  (forall e t1, Q1 (Raise e) t1 -> Q (Raise e) t1) ->
  adds (bind m k) Q.
Proof.
  intros Hm Hk Hraise s.
  destruct (Hm s) as (t1 & Htrace1 & Ht1).
  unfold bind.
  destruct (m s) as [[a|e] s1]; simpl in *.
  - destruct (Hk a t1 Ht1 s1) as (t2 & Htrace2 & Ht2).
    exists (t1 ++ t2)%list. split; [|exact Ht2].
    now rewrite Htrace2, Htrace1, app_assoc.
  - exists t1. split; [exact Htrace1 | now apply Hraise].
Qed.

Lemma adds_json_loads (arguments : option Arguments.t)
    (Q : result Arguments.t -> list Event -> Prop) :
  (forall a, arguments = Some a -> Q (Ok a) []) ->
  (forall e, arguments = None -> Q (Raise e) []) ->
  adds (World := World) (json_loads arguments) Q.
Proof.
  intros Hsome Hnone. destruct arguments as [a|]; simpl.
  - apply adds_ret. now apply Hsome.
  - apply adds_raise. now apply Hnone.
Qed.

Lemma adds_chat_completions_create (request : Request.t)
    (Q : result ChatMessage.t -> list Event -> Prop) :
  (forall response, Q (Ok response) [Invoked request response]) ->
  adds (chat_completions_create World create request) Q.
Proof.
  intros HQ s. unfold chat_completions_create.
  destruct (create request (world s)) as [response w]. simpl.
  exists [Invoked request response]. auto.
Qed.

Lemma adds_execute (query : Value) (Q : result Cursor.t -> list Event -> Prop) :
  (forall r, Q r [Executed query]) ->
  adds (execute World conn_execute query) Q.
Proof.
  intros HQ s. unfold execute.
  destruct (conn_execute query (world s)) as [r w]. simpl.
  exists [Executed query]. auto.
Qed.

Lemma adds_try_except {A : Type} (body : M World A) (handler : string -> M World A)
    (Q1 Q : result A -> list Event -> Prop) :
  adds body Q1 ->
  (forall a t1, Q1 (Ok a) t1 -> Q (Ok a) t1) ->
  (forall e t1, Q1 (Raise e) t1 -> adds (handler e) (fun r t2 => Q r (t1 ++ t2)%list)) ->
  adds (try_except body handler) Q.
Proof.
  intros Hbody Hok Hhandler s.
  destruct (Hbody s) as (t1 & Htrace1 & Ht1).
  unfold try_except.
  destruct (body s) as [[a|e] s1]; simpl in *.
  - exists t1. split; [exact Htrace1 | now apply Hok].
  - destruct (Hhandler e t1 Ht1 s1) as (t2 & Htrace2 & Ht2).
    exists (t1 ++ t2)%list. split; [|exact Ht2].
    now rewrite Htrace2, Htrace1, app_assoc.
Qed.

(** A loop whose rounds each add events with a property [P] that holds of
    no events and of two runs of events one after the other adds events with
    [P]. *)
Lemma adds_for_each_M {A S : Type} (l : list A) (acc : S) (body : S -> A -> M World S)
    (P : list Event -> Prop) :
  P [] ->
  (forall t1 t2, P t1 -> P t2 -> P (t1 ++ t2)%list) ->
  (forall acc x, In x l -> adds (body acc x) (fun _ t => P t)) ->
  adds (for_each_M l acc body) (fun _ t => P t).
Proof.
  intros Hnil Happ. revert acc.
  induction l as [|x l IH]; intros acc Hbody; simpl.
  - now apply adds_ret.
  - eapply adds_bind.
    + apply Hbody. now left.
    + intros acc' t1 Ht1. simpl.
      eapply adds_weaken.
      * apply IH. intros acc'' y Hy. apply Hbody. now right.
      * intros r t2 Ht2. now apply Happ.
    + intros e t1 Ht1. exact Ht1.
Qed.

Lemma for_each_M_app {A S : Type} (l1 l2 : list A) (acc : S)
    (body : S -> A -> M World S) (s : State World) :
  for_each_M (l1 ++ l2) acc body s
  = bind (for_each_M l1 acc body) (fun acc' => for_each_M l2 acc' body) s.
Proof.
  revert acc s.
  induction l1 as [|x l1 IH]; intros acc s; simpl; [reflexivity|].
  unfold bind in *.
  destruct (body acc x s) as [[acc'|e] s1]; [|reflexivity].
  now rewrite IH.
Qed.

End TraceRules.

Lemma supplied_by_forced_call_app_l (t t' : list Event) (q : Value) :
  supplied_by_forced_call t q -> supplied_by_forced_call (t ++ t') q.
Proof.
  intros (request & response & calls & call & a & Hin & H).
  exists request, response, calls, call, a.
  split; [apply in_or_app; now left | exact H].
Qed.

Lemma supplied_by_forced_call_app_r (t t' : list Event) (q : Value) :
  supplied_by_forced_call t q -> supplied_by_forced_call (t' ++ t) q.
Proof.
  intros (request & response & calls & call & a & Hin & H).
  exists request, response, calls, call, a.
  split; [apply in_or_app; now right | exact H].
Qed.

Lemma statements_supplied_nil : statements_supplied [].
Proof. intros q []. Qed.

Lemma statements_supplied_app (t1 t2 : list Event) :
  statements_supplied t1 -> statements_supplied t2 -> statements_supplied (t1 ++ t2).
Proof.
  intros H1 H2 q Hin. apply in_app_or in Hin as [Hin | Hin].
  - now apply supplied_by_forced_call_app_l, H1.
  - now apply supplied_by_forced_call_app_r, H2.
Qed.

Section ProcessQuestionTrace.

Variable World : Type.
Variable create : Request.t -> World -> ChatMessage.t * World.
Variable conn_execute : Value -> World -> result Cursor.t * World.
Variable deployment_name : option string.
Variable schema : Schema.

(** The executor submits its statement and nothing else, and returns. *)
Lemma adds_execute_query (query : Value) :
  adds (SimplifiedDBAgent_execute_query World conn_execute query)
    (fun r t => (exists rows, r = Ok rows) /\ forall ev, In ev t -> ev = Executed query).
Proof.
  intros s.
  unfold SimplifiedDBAgent_execute_query, try_except, bind, execute, lift, iterate,
    ret, raise.
  destruct (conn_execute query (world s)) as [[c|e] w1]; simpl.
  2:{ exists [Executed query]. repeat split; eauto. intros ev [<-|[]]. reflexivity. }
  destruct (Cursor.fetchall c) as [rows|e]; simpl.
  2:{ exists [Executed query]. repeat split; eauto. intros ev [<-|[]]. reflexivity. }
  destruct (conn_execute query w1) as [[c'|e] w2]; simpl.
  2:{ exists [Executed query; Executed query]. rewrite <- app_assoc.
      repeat split; eauto. intros ev [<-|[<-|[]]]; reflexivity. }
  destruct (Cursor.description c') as [d|]; simpl;
    exists [Executed query; Executed query]; rewrite <- app_assoc;
    (repeat split; eauto; intros ev [<-|[<-|[]]]; reflexivity).
Qed.

Lemma statements_supplied_invoked (t : list Event) :
  (forall q, ~ In (Executed q) t) -> statements_supplied t.
Proof.
  intros Hnone q Hin. now elim (Hnone q).
Qed.

Lemma adds_for_each_M_app {A S : Type} (l1 l2 : list A) (acc : S)
    (body : S -> A -> M World S) (Q : result S -> list Event -> Prop) :
  adds (bind (for_each_M l1 acc body) (fun acc' => for_each_M l2 acc' body)) Q ->
  adds (for_each_M (l1 ++ l2) acc body) Q.
Proof.
  intros H s. rewrite for_each_M_app. apply H.
Qed.

(** Every run of [process_question], whatever the model and the engine do:
    each statement submitted to the engine is the one of an [execute_query]
    tool call in the answer to an invocation that forced that tool; and when
    the first response calls [query_database], after calls that are passed
    over, the second invocation forces [execute_query]. *)
Lemma process_question_events (question : string) :
  adds (process_question World create conn_execute deployment_name schema question)
    (fun _ t =>
       statements_supplied t
       /\ second_invocation_forced deployment_name schema question t).
Proof.
  unfold process_question.
  fold (seed_process_question schema question).
  fold (first_request deployment_name schema question).
  eapply adds_bind with
    (Q1 := fun r t => exists first,
             r = Ok first
             /\ t = [Invoked (first_request deployment_name schema question) first]).
  { apply adds_chat_completions_create. eauto. }
  2:{ intros e t1 (first & Hr & _). discriminate. }
  intros first t1 (first' & Hr & ->). injection Hr as <-.
  match goal with
  | |- context [for_each_M _ _ ?b] => set (body := b)
  end.
  (* one round *)
  assert (Hround : forall st call, adds (body st call) (round_events call)).
  { intros [messages results] call. subst body. cbv beta iota.
    eapply adds_bind with
      (Q1 := fun r t =>
               t = []
               /\ (forall a, r = Ok a -> ToolCall.function_arguments call = Some a)
               /\ (forall e, r = Raise e -> ToolCall.function_arguments call = None)).
    - apply adds_json_loads.
      + intros a Ha. repeat split; congruence.
      + intros e Ha. repeat split; congruence.
    - intros a t1 (-> & Ha & _). cbn [app].
      destruct (String.eqb_spec (ToolCall.function_name call) "query_database")
        as [Hname | Hname].
      + eapply adds_bind with
          (Q1 := fun r t => exists follow, r = Ok follow /\ t = [Invoked _ follow]).
        { apply adds_chat_completions_create. eauto. }
        2:{ intros e t1 (follow & Hr & _). discriminate. }
        intros follow t1 (follow' & Hr & ->). injection Hr as <-.
        eapply adds_weaken with
          (Q := fun _ t =>
                  forall ev, In ev t ->
                    exists call' a',
                      ev = Executed (get (Arguments.query a') VNone)
                      /\ In call' (get (ChatMessage.tool_calls follow) [])
                      /\ ToolCall.function_name call' = "execute_query"
                      /\ ToolCall.function_arguments call' = Some a').
        * destruct (truthy_option_list (ChatMessage.tool_calls follow)).
          2:{ apply adds_ret. intros ev []. }
          apply adds_for_each_M.
          { intros ev []. }
          { intros t1 t2 H1 H2 ev Hin.
            apply in_app_or in Hin as [Hin | Hin]; auto. }
          intros [messages' results'] exec_call Hcall. cbv beta iota.
          destruct (String.eqb_spec (ToolCall.function_name exec_call) "execute_query")
            as [Hexec | Hexec].
          2:{ apply adds_ret. intros ev []. }
          eapply adds_bind with
            (Q1 := fun r t =>
                     t = []
                     /\ forall a', r = Ok a' ->
                          ToolCall.function_arguments exec_call = Some a').
          { apply adds_json_loads.
            - intros a' Ha'. split; congruence.
            - intros e _. split; [reflexivity | discriminate]. }
          2:{ intros e t1 (-> & _) ev []. }
          intros a' t1 (-> & Ha'). cbn [app].
          eapply adds_bind.
          { apply adds_execute_query. }
          2:{ intros e t1 ((rows & Hrows) & _). discriminate. }
          intros rows t1 (_ & Ht1).
          apply adds_ret. rewrite app_nil_r.
          intros ev Hin. exists exec_call, a'.
          split; [now apply Ht1 | auto].
        * intros r t2 Ht2. split; [|split].
          -- intros q Hin. destruct Hin as [Hin | Hin]; [discriminate|].
             destruct (Ht2 _ Hin) as (call' & a' & Hev & Hcall' & Hname' & Hargs').
             injection Hev as ->.
             destruct (ChatMessage.tool_calls follow) as [calls|] eqn:Hcalls;
               [|now elim Hcall'].
             eexists _, follow, calls, call', a'.
             split; [left; reflexivity|].
             repeat split; auto.
          -- intros [Hnot _]. now elim Hnot.
          -- intros _ _. eexists _, follow, t2. split; [reflexivity|].
             split; reflexivity.
      + apply adds_ret. split; [|split].
        * apply statements_supplied_nil.
        * eauto.
        * intros Hqd. now elim Hname.
    - intros e t1 (-> & _ & Hnone). split; [|split].
      + apply statements_supplied_nil.
      + intros [_ Hargs]. elim Hargs. now apply (Hnone e).
      + intros _ Hargs. elim Hargs. now apply (Hnone e). }
  clearbody body.
  assert (Hloop : forall l st,
             adds (for_each_M l st body) (fun _ t => statements_supplied t)).
  { intros l st. apply adds_for_each_M.
    - apply statements_supplied_nil.
    - apply statements_supplied_app.
    - intros acc x _. eapply adds_weaken; [apply Hround|].
      now intros r t (H & _). }
  assert (Hpre : forall pre st,
             Forall passed_over pre ->
             adds (for_each_M pre st body) (fun r t => t = [] /\ exists st', r = Ok st')).
  { induction pre as [|c pre IH]; intros st Hall; simpl.
    - apply adds_ret. eauto.
    - inversion Hall as [|? ? Hc Hpre']; subst.
      eapply adds_bind.
      + apply Hround.
      + intros st' t1 (_ & Hpass & _). destruct (Hpass Hc) as (-> & _). simpl.
        now apply IH.
      + intros e t1 (_ & Hpass & _).
        destruct (Hpass Hc) as (_ & st' & Hst'). discriminate. }
  assert (Hcall : forall pre call post st,
             Forall passed_over pre ->
             ToolCall.function_name call = "query_database" ->
             ToolCall.function_arguments call <> None ->
             adds (for_each_M (pre ++ call :: post) st body)
               (fun _ t => exists request follow rest,
                    t = Invoked request follow :: rest
                    /\ forces_execute_query request)).
  { intros pre call post st Hall Hqd Hargs.
    apply adds_for_each_M_app.
    eapply adds_bind.
    - now apply Hpre.
    - intros st' t1 (-> & _). simpl.
      eapply adds_bind.
      + apply Hround.
      + intros st'' t1 (_ & _ & Hforced).
        destruct (Hforced Hqd Hargs) as (request & follow & rest & -> & Hrequest).
        eapply adds_weaken; [apply Hloop|].
        intros r t2 _. simpl. eauto.
      + intros e t1 (_ & _ & Hforced). now apply Hforced.
    - intros e t1 (_ & st' & Hst'). discriminate. }
  set (Qloop := fun (_ : result (list Message * Results.t)) (t : list Event) =>
         statements_supplied t
         /\ forall pre call post,
              ChatMessage.tool_calls first = Some (pre ++ call :: post)%list ->
              Forall passed_over pre ->
              ToolCall.function_name call = "query_database" ->
              ToolCall.function_arguments call <> None ->
              exists request follow rest,
                t = Invoked request follow :: rest
                /\ forces_execute_query request).
  assert (Hfinish : forall r t1 t3,
             Qloop r t1 -> (forall q, ~ In (Executed q) t3) ->
             statements_supplied
               ([Invoked (first_request deployment_name schema question) first]
                  ++ t1 ++ t3)
             /\ second_invocation_forced deployment_name schema question
                  ([Invoked (first_request deployment_name schema question) first]
                     ++ t1 ++ t3)).
  { intros r t1 t3 (Hsupplied & Hforced) Ht3. split.
    - apply statements_supplied_app; [|apply statements_supplied_app].
      + apply statements_supplied_invoked. intros q [Hin | []]. discriminate.
      + exact Hsupplied.
      + now apply statements_supplied_invoked.
    - exists first, (t1 ++ t3)%list. split; [reflexivity|].
      intros pre call post Hcalls Hall Hqd Hargs.
      destruct (Hforced pre call post Hcalls Hall Hqd Hargs)
        as (request & follow & rest & -> & Hrequest).
      exists request, follow, (rest ++ t3)%list. now split. }
  eapply adds_bind with (Q1 := Qloop).
  - intros s.
    assert (Hsupplied :
              adds (if truthy_option_list (ChatMessage.tool_calls first)
                    then for_each_M (get (ChatMessage.tool_calls first) [])
                           (list_append (seed_process_question schema question)
                              (ResponseMessage first),
                            Results.mk question None None None) body
                    else ret (list_append (seed_process_question schema question)
                                (ResponseMessage first),
                              Results.mk question None None None))
                (fun _ t => statements_supplied t)).
    { destruct (truthy_option_list (ChatMessage.tool_calls first)).
      - apply Hloop.
      - apply adds_ret, statements_supplied_nil. }
    destruct (Hsupplied s) as (t & Htrace & Ht).
    exists t. split; [exact Htrace|]. split; [exact Ht|].
    intros pre call post Hcalls Hall Hqd Hargs.
    revert Htrace. rewrite Hcalls.
    replace (truthy_option_list (Some (pre ++ call :: post)%list)) with true
      by (now destruct pre).
    cbn [get]. intros Htrace.
    destruct (Hcall pre call post
                (list_append (seed_process_question schema question)
                   (ResponseMessage first),
                 Results.mk question None None None) Hall Hqd Hargs s)
      as (t' & Htrace' & Ht').
    assert (t' = t) as -> by (apply (app_inv_head (trace s)); congruence).
    exact Ht'.
  - intros [messages results] t1 Ht1.
    eapply adds_bind with
      (Q1 := fun r t => exists final, r = Ok final /\ t = [Invoked _ final]).
    + apply adds_chat_completions_create. eauto.
    + intros final t2 (final' & Hr & ->). injection Hr as <-.
      apply adds_ret. rewrite app_nil_r.
      apply (Hfinish _ _ _ Ht1). intros q [Hin | []]. discriminate.
    + intros e t2 (final & Hr & _). discriminate.
  - intros e t1 Ht1.
    rewrite <- (app_nil_r t1).
    apply (Hfinish _ _ _ Ht1). intros q [].
Qed.

End ProcessQuestionTrace.

(** ** Further properties of the compilers *)

Lemma compile_clauses_select_prefix (qs : QueryStructure.t) :
  exists rest, compile_clauses qs = "SELECT " ++ rest.
Proof.
  unfold compile_clauses, select_clause.
  eexists. rewrite !append_assoc. reflexivity.
Qed.

(** [build_query] returns its diagnostic comment exactly when the table is
    falsy: absent, [None], the empty string, zero or [False].  It returns a
    statement that starts with [SELECT ] exactly when the table is truthy. *)
Theorem build_query_diagnostic_iff (qs : QueryStructure.t) :
  (build_query qs = "-- Error: No table specified"
   <-> truthy (get (QueryStructure.table qs) (VStr "")) = false)
  /\ ((exists rest, build_query qs = "SELECT " ++ rest)
      <-> truthy (get (QueryStructure.table qs) (VStr "")) = true).
Proof.
  rewrite build_query_clauses.
  destruct (compile_clauses_select_prefix qs) as (rest & Hrest).
  destruct (truthy (get (QueryStructure.table qs) (VStr ""))).
  - rewrite Hrest. split; split; try discriminate; [reflexivity | eauto].
  - split; split; try reflexivity; try discriminate.
    intros (rest' & Hdiag). discriminate.
Qed.

Lemma compile_clauses_without_limit (qs : QueryStructure.t) :
  compile_clauses qs = compile_clauses (without_limit qs) ++ limit_clause qs.
Proof.
  unfold compile_clauses, without_limit, select_clause, projection, joins_clause,
    where_clause, group_by_clause, order_by_clause, limit_clause.
  cbn [QueryStructure.table QueryStructure.columns QueryStructure.conditions
       QueryStructure.joins QueryStructure.group_by QueryStructure.order_by
       QueryStructure.limit].
  now rewrite append_empty_r, !append_assoc.
Qed.

(** A falsy limit (zero, [None], the empty string, [False]) is the same as
    no limit, for both compilers. *)
Theorem limit_falsy_omitted (qs : QueryStructure.t) (n : Value) :
  QueryStructure.limit qs = Some n ->
  truthy n = false ->
  build_query qs = build_query (without_limit qs)
  /\ build_sql_query qs = build_sql_query (without_limit qs).
Proof.
  intros Hlimit Hfalsy.
  rewrite !build_query_clauses, !build_sql_query_clauses.
  rewrite (compile_clauses_without_limit qs).
  unfold limit_clause. rewrite Hlimit, Hfalsy, append_empty_r.
  split; reflexivity.
Qed.

Lemma limit_falsy_omitted_witness :
  build_query (dict [ITable (VStr "t"); ILimit (VInt 0)]) = "SELECT * FROM t".
Proof.
  exact (proj1 (limit_falsy_omitted (dict [ITable (VStr "t"); ILimit (VInt 0)]) (VInt 0)
                  eq_refl eq_refl)).
Defined.

(** A truthy limit adds [ LIMIT n] at the end of the statement without it. *)
Theorem limit_truthy_appended (qs : QueryStructure.t) (n : Value) :
  QueryStructure.limit qs = Some n ->
  truthy n = true ->
  build_sql_query qs = build_sql_query (without_limit qs) ++ " LIMIT " ++ str n
  /\ (truthy (get (QueryStructure.table qs) (VStr "")) = true ->
      build_query qs = build_query (without_limit qs) ++ " LIMIT " ++ str n).
Proof.
  intros Hlimit Htruthy.
  rewrite !build_query_clauses, !build_sql_query_clauses.
  rewrite (compile_clauses_without_limit qs).
  unfold limit_clause. rewrite Hlimit, Htruthy.
  split; [reflexivity|].
  intros Htable. cbn [without_limit QueryStructure.table].
  now rewrite Htable.
Qed.

Lemma limit_truthy_appended_witness :
  build_sql_query (dict [ITable (VStr "t"); ILimit (VInt 5)]) = "SELECT * FROM t LIMIT 5".
Proof.
  exact (proj1 (limit_truthy_appended (dict [ITable (VStr "t"); ILimit (VInt 5)]) (VInt 5)
                  eq_refl eq_refl)).
Defined.

Lemma get_present_nonempty {A : Type} (entry : option (list A)) :
  get (present_nonempty entry) [] = get entry [].
Proof.
  now destruct entry as [[|x l]|].
Qed.

Lemma compile_clauses_without_empty_lists (qs : QueryStructure.t) :
  compile_clauses (without_empty_lists qs) = compile_clauses qs.
Proof.
  unfold compile_clauses, without_empty_lists, select_clause, projection, joins_clause,
    where_clause, group_by_clause, order_by_clause, limit_clause.
  cbn [QueryStructure.table QueryStructure.columns QueryStructure.conditions
       QueryStructure.joins QueryStructure.group_by QueryStructure.order_by
       QueryStructure.limit].
  now rewrite !get_present_nonempty.
Qed.

(** An empty list under [conditions], [joins], [group_by] or [order_by] is
    the same as an absent key, for both compilers. *)
Theorem empty_lists_as_absent (qs : QueryStructure.t) :
  build_query (without_empty_lists qs) = build_query qs
  /\ build_sql_query (without_empty_lists qs) = build_sql_query qs.
Proof.
  rewrite !build_query_clauses, !build_sql_query_clauses.
  rewrite compile_clauses_without_empty_lists.
  split; reflexivity.
Qed.

Lemma upper_ascii_idempotent (c : ascii) : upper_ascii (upper_ascii c) = upper_ascii c.
Proof.
  destruct c as [b0 b1 b2 b3 b4 b5 b6 b7].
  destruct b0, b1, b2, b3, b4, b5, b6, b7; reflexivity.
Qed.

Lemma upper_idempotent (s : string) : upper (upper s) = upper s.
Proof.
  induction s as [|c s IH]; simpl; [reflexivity|].
  now rewrite upper_ascii_idempotent, IH.
Qed.

Lemma render_join_with_upper_type (table : Value) (j : Join.t) :
  render_join table (with_upper_type j) = render_join table j.
Proof.
  unfold render_join, with_upper_type. cbn [Join.type Join.table Join.on get].
  now rewrite upper_idempotent.
Qed.

Lemma compile_clauses_setitem_joins (qs : QueryStructure.t) (js js' : list Join.t) :
  QueryStructure.joins qs = Some js ->
  map (render_join (get (QueryStructure.table qs) (VStr ""))) js'
  = map (render_join (get (QueryStructure.table qs) (VStr ""))) js ->
  compile_clauses (setitem qs (IJoins js')) = compile_clauses qs.
Proof.
  intros Hjoins Hmap.
  unfold compile_clauses, setitem, select_clause, projection, joins_clause,
    where_clause, group_by_clause, order_by_clause, limit_clause.
  cbn [QueryStructure.table QueryStructure.columns QueryStructure.conditions
       QueryStructure.joins QueryStructure.group_by QueryStructure.order_by
       QueryStructure.limit].
  rewrite Hjoins. cbn [get]. now rewrite Hmap.
Qed.

(** The type of a join counts in upper case only: writing the type of every
    join in upper case, and [INNER] where a join has no type, leaves the
    statement of both compilers as it is. *)
Theorem join_type_case_insensitive (qs : QueryStructure.t) (js : list Join.t) :
  QueryStructure.joins qs = Some js ->
  build_query (setitem qs (IJoins (map with_upper_type js))) = build_query qs
  /\ build_sql_query (setitem qs (IJoins (map with_upper_type js))) = build_sql_query qs.
Proof.
  intros Hjoins.
  rewrite !build_query_clauses, !build_sql_query_clauses.
  rewrite (compile_clauses_setitem_joins qs js); [|exact Hjoins|].
  - split; reflexivity.
  - rewrite map_map. apply map_ext. intros j. apply render_join_with_upper_type.
Qed.

Lemma join_type_case_insensitive_witness :
  build_query (dict [ITable (VStr "a");
                     IJoins [Join.mk (Some (VStr "b")) (Some "LEFT") None;
                             Join.mk (Some (VStr "c")) (Some "INNER") None]])
  = build_query (dict [ITable (VStr "a");
                       IJoins [Join.mk (Some (VStr "b")) (Some "left") None;
                               Join.mk (Some (VStr "c")) None None]]).
Proof.
  exact (proj1 (join_type_case_insensitive
                  (dict [ITable (VStr "a");
                         IJoins [Join.mk (Some (VStr "b")) (Some "left") None;
                                 Join.mk (Some (VStr "c")) None None]])
                  [Join.mk (Some (VStr "b")) (Some "left") None;
                   Join.mk (Some (VStr "c")) None None]
                  eq_refl)).
Defined.

Lemma render_join_defaults_eq (t : string) (j : Join.t) :
  render_join (VStr t) j = render_join_defaults t j.
Proof.
  unfold render_join, render_join_defaults.
  destruct j as [[jt|] [ty|] [[[l|] [r|]]|]]; reflexivity.
Qed.

(** A join that leaves out its type is an [INNER] join, and a join that
    leaves out its table, its [on] object or a column of it is rendered with
    the empty string in that place. *)
Theorem join_defaults (qs : QueryStructure.t) (t : string) (js : list Join.t) :
  QueryStructure.table qs = Some (VStr t) ->
  t <> "" ->
  QueryStructure.joins qs = Some js ->
  let sql :=
    select_clause qs ++ String.concat "" (map (render_join_defaults t) js)
      ++ where_clause qs ++ group_by_clause qs ++ order_by_clause qs ++ limit_clause qs in
  build_query qs = sql /\ build_sql_query qs = sql.
Proof.
  intros Htable Hne Hjoins sql.
  rewrite build_sql_query_clauses, (build_query_valid qs t Htable Hne).
  assert (Hclause : joins_clause qs = String.concat "" (map (render_join_defaults t) js)).
  { unfold joins_clause. rewrite Htable, Hjoins. cbn [get]. f_equal.
    apply map_ext. intros j. apply render_join_defaults_eq. }
  unfold compile_clauses, sql. now rewrite Hclause.
Qed.

Lemma join_defaults_witness :
  build_query (dict [ITable (VStr "a"); IJoins [Join.mk (Some (VStr "b")) None None]])
  = "SELECT * FROM a INNER JOIN b ON a. = b.".
Proof.
  exact (proj1 (join_defaults
                  (dict [ITable (VStr "a"); IJoins [Join.mk (Some (VStr "b")) None None]])
                  "a" [Join.mk (Some (VStr "b")) None None]
                  eq_refl (fun H => match H with eq_refl => I end) eq_refl)).
Defined.

Lemma render_order_defaults_eq (o : OrderSpec.t) :
  render_order o = render_order_defaults o.
Proof.
  unfold render_order, render_order_defaults.
  destruct o as [[c|] [d|]]; reflexivity.
Qed.

(** An order specification that leaves out its direction is ordered [ASC];
    the ORDER BY clause lists the specifications in their order, separated by
    commas. *)
Theorem order_by_defaults (qs : QueryStructure.t) (t : string)
    (o : OrderSpec.t) (os : list OrderSpec.t) :
  QueryStructure.table qs = Some (VStr t) ->
  t <> "" ->
  QueryStructure.order_by qs = Some (o :: os) ->
  let sql :=
    select_clause qs ++ joins_clause qs ++ where_clause qs ++ group_by_clause qs
      ++ (" ORDER BY " ++ join ", " (map render_order_defaults (o :: os)))
      ++ limit_clause qs in
  build_query qs = sql /\ build_sql_query qs = sql.
Proof.
  intros Htable Hne Horder sql.
  rewrite build_sql_query_clauses, (build_query_valid qs t Htable Hne).
  assert (Hclause : order_by_clause qs
                    = " ORDER BY " ++ join ", " (map render_order_defaults (o :: os))).
  { unfold order_by_clause. rewrite Horder. cbn [get]. do 2 f_equal.
    apply map_ext. intros o'. apply render_order_defaults_eq. }
  unfold compile_clauses, sql. now rewrite Hclause.
Qed.

Lemma order_by_defaults_witness :
  build_query (dict [ITable (VStr "t");
                     IOrderBy [OrderSpec.mk (Some (VStr "a")) None;
                               OrderSpec.mk (Some (VStr "b")) (Some (VStr "DESC"))]])
  = "SELECT * FROM t ORDER BY a ASC, b DESC".
Proof.
  exact (proj1 (order_by_defaults
                  (dict [ITable (VStr "t");
                         IOrderBy [OrderSpec.mk (Some (VStr "a")) None;
                                   OrderSpec.mk (Some (VStr "b")) (Some (VStr "DESC"))]])
                  "t" (OrderSpec.mk (Some (VStr "a")) None)
                  [OrderSpec.mk (Some (VStr "b")) (Some (VStr "DESC"))]
                  eq_refl ltac:(discriminate) eq_refl)).
Defined.

Lemma lower_append (a b : string) : lower (a ++ b) = lower a ++ lower b.
Proof.
  induction a as [|c a IH]; simpl; [reflexivity|].
  now rewrite IH.
Qed.

(** A string value is kept without quotes whenever it starts with the
    letters of [select] in any case, whatever follows them: a sub-query, and
    also a word such as [Selected]. *)
Theorem select_prefix_unquoted (t p rest : string) (column operator : Value) :
  t <> "" ->
  lower p = "select" ->
  let qs := dict [ITable (VStr t);
                  IConditions [Condition.mk (Some column) (Some operator)
                                 (Some (VStr (p ++ rest)))]] in
  let sql := "SELECT * FROM " ++ t ++ " WHERE " ++ str column ++ " " ++ str operator
               ++ " " ++ p ++ rest in
  build_query qs = sql /\ build_sql_query qs = sql.
Proof.
  intros Hne Hp qs sql.
  rewrite build_sql_query_clauses, (build_query_valid qs t eq_refl Hne).
  assert (Hvalue : format_value (VStr (p ++ rest)) = p ++ rest).
  { unfold format_value. rewrite lower_append, Hp.
    now rewrite startswith_append. }
  unfold compile_clauses, qs, sql, select_clause, projection, joins_clause, where_clause,
    group_by_clause, order_by_clause, limit_clause, render_condition.
  cbn [dict for_each fold_left setitem empty_dict get map join String.concat
       QueryStructure.table QueryStructure.columns QueryStructure.conditions
       QueryStructure.joins QueryStructure.group_by QueryStructure.order_by
       QueryStructure.limit Condition.column Condition.operator Condition.value str].
  rewrite Hvalue.
  simpl. rewrite ?append_empty_r, ?append_assoc. simpl.
  split; reflexivity.
Qed.

Lemma select_prefix_unquoted_witness :
  build_query (dict [ITable (VStr "orders");
                     IConditions [Condition.mk (Some (VStr "status")) (Some (VStr "="))
                                    (Some (VStr "Selected items"))]])
  = "SELECT * FROM orders WHERE status = Selected items".
Proof.
  exact (proj1 (select_prefix_unquoted "orders" "Select" "ed items" (VStr "status")
                  (VStr "=") ltac:(discriminate) eq_refl)).
Defined.

(** ** The tool function [query_database] *)

Lemma query_database_structure (table : Value) (columns : list string)
    (conditions : option (list Condition.t)) (joins : option (list Join.t))
    (group_by : option (list string)) (order_by : option (list OrderSpec.t))
    (limit : option Value) :
  fst (query_database table columns conditions joins group_by order_by limit)
  = QueryStructure.mk (Some table) (Some columns) (present_nonempty conditions)
      (present_nonempty joins) (present_nonempty group_by) (present_nonempty order_by)
      (present_truthy limit).
Proof.
  unfold query_database.
  destruct (present_nonempty conditions), (present_nonempty joins),
    (present_nonempty group_by), (present_nonempty order_by), (present_truthy limit);
    reflexivity.
Qed.

Lemma present_nonempty_not_empty {A : Type} (entry : option (list A)) :
  present_nonempty entry <> Some [].
Proof.
  destruct entry as [[|x l]|]; simpl; discriminate.
Qed.

Lemma limit_clause_present_truthy (qs qs' : QueryStructure.t) (limit : option Value) :
  QueryStructure.limit qs = present_truthy limit ->
  QueryStructure.limit qs' = limit ->
  limit_clause qs = limit_clause qs'.
Proof.
  unfold limit_clause. intros -> ->.
  destruct limit as [n|]; simpl; [|reflexivity].
  destruct (truthy n) eqn:Hn; [|reflexivity].
  now rewrite Hn.
Qed.

(** [query_database] returns the statement that [build_sql_query] gives for
    its arguments taken as they are, so an optional argument that is empty
    or zero counts as one that is left out; and the structure it returns
    holds the table and the columns, no empty list and no falsy limit. *)
Theorem query_database_sql (table : Value) (columns : list string)
    (conditions : option (list Condition.t)) (joins : option (list Join.t))
    (group_by : option (list string)) (order_by : option (list OrderSpec.t))
    (limit : option Value) :
  let returned := query_database table columns conditions joins group_by order_by limit in
  snd returned
  = build_sql_query
      (query_database_arguments table columns conditions joins group_by order_by limit)
  /\ QueryStructure.table (fst returned) = Some table
  /\ QueryStructure.columns (fst returned) = Some columns
  /\ optional_keys_truthy (fst returned).
Proof.
  intros returned.
  pose proof (query_database_structure table columns conditions joins group_by order_by
                limit) as Hstructure.
  fold returned in Hstructure.
  split; [|rewrite Hstructure; split; [reflexivity | split; [reflexivity|]]].
  - change (snd returned) with (build_sql_query (fst returned)).
    rewrite !build_sql_query_clauses, Hstructure.
    unfold compile_clauses, query_database_arguments, select_clause, projection,
      joins_clause, where_clause, group_by_clause, order_by_clause.
    cbn [QueryStructure.table QueryStructure.columns QueryStructure.conditions
         QueryStructure.joins QueryStructure.group_by QueryStructure.order_by].
    rewrite !get_present_nonempty.
    do 5 f_equal.
    now apply (limit_clause_present_truthy _ _ limit).
  - unfold optional_keys_truthy.
    cbn [QueryStructure.conditions QueryStructure.joins QueryStructure.group_by
         QueryStructure.order_by QueryStructure.limit].
    repeat split; try apply present_nonempty_not_empty.
    intros n Hn. destruct limit as [m|]; simpl in Hn; [|discriminate].
    destruct (truthy m) eqn:Hm; [|discriminate].
    now injection Hn as <-.
Qed.

(** ** The schema catalog *)

















(** ** Further properties of the executor *)

Section ExecutorEvents.

Variable World : Type.
Variable conn_execute : Value -> World -> result Cursor.t * World.

(** Whatever the engine does, [execute_query] submits the statement it is
    given, and no other, once or twice. *)
Theorem execute_query_submits_once_or_twice (query : Value) (s : State World) :
  let t := trace (snd (DatabaseQueryAgent_execute_query World conn_execute query s)) in
  t = (trace s ++ [Executed query])%list
  \/ t = (trace s ++ [Executed query; Executed query])%list.
Proof.
  unfold DatabaseQueryAgent_execute_query, try_except, bind, execute, lift, iterate,
    ret, raise.
  destruct (conn_execute query (world s)) as [[c|e] w1]; simpl; [|now left].
  destruct (Cursor.fetchall c) as [rows|e]; simpl; [|now left].
  destruct (conn_execute query w1) as [[c'|e] w2]; simpl;
    [|right; now rewrite <- app_assoc].
  destruct (Cursor.description c') as [d|]; simpl; right; now rewrite <- app_assoc.
Qed.

(** Once the rows of the statement are fetched, [execute_query] submits the
    same statement a second time, for the column names: the engine is left
    as the second run leaves it, and the rows of the first run are returned
    under the column names of the second. *)
Theorem execute_query_runs_statement_twice (query : Value) (s : State World)
    (c : Cursor.t) (rows : list Row) (w1 : World) (c' : Cursor.t)
    (d : list (string * string)) (w2 : World) :
  conn_execute query (world s) = (Ok c, w1) ->
  Cursor.fetchall c = Ok rows ->
  conn_execute query w1 = (Ok c', w2) ->
  Cursor.description c' = Some d ->
  DatabaseQueryAgent_execute_query World conn_execute query s
  = (Ok (map (fun row => row_dict (zip (map fst d) row)) rows),
     mkState w2 (trace s ++ [Executed query; Executed query])).
Proof.
  intros H1 Hrows H2 Hd.
  unfold DatabaseQueryAgent_execute_query, try_except, bind, execute, lift, iterate,
    ret, raise.
  rewrite H1. simpl. rewrite Hrows. simpl. rewrite H2. simpl. rewrite Hd. simpl.
  now rewrite <- app_assoc.
Qed.

(** A statement that the engine rejects, or whose rows cannot be fetched, is
    submitted once, and the error row carries the text of the exception. *)
Theorem execute_query_rejected_once (query : Value) (s : State World)
    (r : result Cursor.t) (e : string) (w1 : World) :
  conn_execute query (world s) = (r, w1) ->
  r = Raise e \/ (exists c, r = Ok c /\ Cursor.fetchall c = Raise e) ->
  DatabaseQueryAgent_execute_query World conn_execute query s
  = (Ok [[("error", VStr e)]], mkState w1 (trace s ++ [Executed query])).
Proof.
  intros H1 Hr.
  unfold DatabaseQueryAgent_execute_query, try_except, bind, execute, lift, iterate,
    ret, raise.
  rewrite H1.
  destruct Hr as [-> | (c & -> & Hfetch)]; simpl; [reflexivity|].
  now rewrite Hfetch.
Qed.

End ExecutorEvents.

Lemma execute_query_runs_statement_twice_witness :
  DatabaseQueryAgent_execute_query nat counting_engine (VStr "SELECT count(*) FROM t")
    (mkState 0 [])
  = (Ok [[("count", VInt 0)]],
     mkState 2 [Executed (VStr "SELECT count(*) FROM t");
                Executed (VStr "SELECT count(*) FROM t")]).
Proof.
  exact (execute_query_runs_statement_twice nat counting_engine
           (VStr "SELECT count(*) FROM t") (mkState 0 [])
           (Cursor.mk (Ok [[VInt 0]]) (Some [("count", "INTEGER")])) [[VInt 0]] 1
           (Cursor.mk (Ok [[VInt 1]]) (Some [("count", "INTEGER")]))
           [("count", "INTEGER")] 2 eq_refl eq_refl eq_refl eq_refl).
Defined.

Lemma execute_query_rejected_once_witness :
  DatabaseQueryAgent_execute_query unit toy_engine (VStr "SELEC 1") (mkState tt [])
  = (Ok [[("error", VStr "Parser Error: syntax error")]],
     mkState tt [Executed (VStr "SELEC 1")]).
Proof.
  exact (execute_query_rejected_once unit toy_engine (VStr "SELEC 1") (mkState tt [])
           (Raise "Parser Error: syntax error") "Parser Error: syntax error" tt
           eq_refl (or_introl eq_refl)).
Defined.

(** A row that [execute_query] returns for distinct column names gives,
    under the name of a column, the value at the place of that column in
    the fetched tuple, and nothing when the tuple has no such place. *)
Theorem row_lookup_by_column (columns : list string) (row : Row) (i : nat) (k : string) :
  NoDup columns ->
  nth_error columns i = Some k ->
  row_get (row_dict (zip columns row)) k = nth_error row i.
Proof.
  intros Hnodup Hk.
  rewrite row_dict_distinct by now apply zip_keys_NoDup.
  now apply row_get_zip.
Qed.

Lemma row_lookup_by_column_witness :
  row_get (row_dict (zip ["department"; "amount"] [VStr "Engineering"; VInt 100])) "amount"
  = Some (VInt 100).
Proof.
  refine (row_lookup_by_column ["department"; "amount"] [VStr "Engineering"; VInt 100]
            1 "amount" _ eq_refl).
  repeat constructor; simpl; intuition discriminate.
Defined.

(** ** Further properties of the orchestration loops *)

Lemma compile_clauses_with_defaults (args : QueryStructure.t) :
  compile_clauses (query_structure_with_defaults args)
  = compile_clauses (setitem args (ITable (get (QueryStructure.table args) VNone))).
Proof.
  unfold compile_clauses, query_structure_with_defaults, setitem, select_clause,
    projection, joins_clause, where_clause, group_by_clause, order_by_clause,
    limit_clause.
  cbn [QueryStructure.table QueryStructure.columns QueryStructure.conditions
       QueryStructure.joins QueryStructure.group_by QueryStructure.order_by
       QueryStructure.limit get].
  destruct (QueryStructure.limit args) as [n|]; reflexivity.
Qed.

(** The defaults that [process_question] fills in before it compiles the
    arguments of a [query_database] call change nothing: for arguments that
    name a table, the statement is the one of the arguments as they are. *)
Theorem defaults_keep_statement (args : QueryStructure.t) (t : Value) :
  QueryStructure.table args = Some t ->
  build_sql_query (query_structure_with_defaults args) = build_sql_query args.
Proof.
  intros Htable.
  rewrite !build_sql_query_clauses, compile_clauses_with_defaults, Htable.
  cbn [get]. f_equal.
  destruct args as [table columns conditions joins group_by order_by limit].
  simpl in Htable. now subst table.
Qed.

Lemma defaults_keep_statement_witness :
  build_sql_query
    (query_structure_with_defaults (dict [ITable (VStr "budgets"); ILimit (VInt 3)]))
  = "SELECT * FROM budgets LIMIT 3".
Proof.
  exact (defaults_keep_statement (dict [ITable (VStr "budgets"); ILimit (VInt 3)])
           (VStr "budgets") eq_refl).
Defined.

Section Loops.

Variable World : Type.
Variable create : Request.t -> World -> ChatMessage.t * World.
Variable conn_execute : Value -> World -> result Cursor.t * World.
Variable deployment_name : option string.
Variable schema : Schema.

Lemma for_each_M_skip {A S : Type} (P : A -> Prop) (l : list A) (acc : S)
    (body : S -> A -> M World S) (s : State World) :
  (forall acc x s, P x -> body acc x s = (Ok acc, s)) ->
  Forall P l ->
  for_each_M l acc body s = (Ok acc, s).
Proof.
  intros Hbody Hall.
  induction Hall as [|x l Hx Hall IH]; simpl; [reflexivity|].
  unfold bind. now rewrite Hbody.
Qed.

Lemma for_each_M_raise {A S : Type} (P : A -> Prop) (pre post : list A) (x : A) (acc : S)
    (body : S -> A -> M World S) (s : State World) (e : string) :
  (forall acc x s, P x -> body acc x s = (Ok acc, s)) ->
  Forall P pre ->
  body acc x s = (Raise e, s) ->
  for_each_M (pre ++ x :: post) acc body s = (Raise e, s).
Proof.
  intros Hbody Hall Hraise.
  rewrite for_each_M_app. unfold bind.
  rewrite (for_each_M_skip P) by assumption.
  simpl. unfold bind. now rewrite Hraise.
Qed.

(** [process_question] acts on the [query_database] calls of the first
    response only.  When every call of it names another tool, a direct
    [execute_query] included, nothing is submitted to the engine, and the
    run asks for the answer as if there were no call: no SQL, no rows. *)
Theorem process_question_passes_over_other_tools (question : string) (s : State World)
    (first final : ChatMessage.t) (calls : list ToolCall.t) (w1 w2 : World) :
  create (first_request deployment_name schema question) (world s) = (first, w1) ->
  ChatMessage.tool_calls first = Some calls ->
  Forall passed_over calls ->
  create (answer_request deployment_name schema question first) w1 = (final, w2) ->
  process_question World create conn_execute deployment_name schema question s
  = (Ok (Results.mk question None None (ChatMessage.content final)),
     mkState w2
       (trace s ++ [Invoked (first_request deployment_name schema question) first;
                    Invoked (answer_request deployment_name schema question first)
                      final])).
Proof.
  intros Hfirst Hcalls Hall Hfinal.
  unfold process_question.
  fold (seed_process_question schema question).
  fold (first_request deployment_name schema question).
  match goal with
  | |- context [for_each_M _ _ ?b] => set (body := b)
  end.
  assert (Hbody : forall st call s, passed_over call -> body st call s = (Ok st, s)).
  { intros [messages results] call s' [Hname Hargs]. subst body. cbv beta iota.
    destruct (ToolCall.function_arguments call) as [a|]; [|now elim Hargs].
    unfold bind, json_loads, ret.
    destruct (String.eqb_spec (ToolCall.function_name call) "query_database")
      as [Hqd | _]; [now elim Hname | reflexivity]. }
  clearbody body.
  unfold bind at 1. unfold chat_completions_create at 1.
  rewrite Hfirst. cbv iota beta.
  unfold bind at 1. rewrite Hcalls. cbn [get].
  assert (Hloop : forall st s',
             (if truthy_option_list (Some calls)
              then for_each_M calls st body
              else ret st) s' = (Ok st, s')).
  { intros st s'. destruct (truthy_option_list (Some calls)); [|reflexivity].
    now apply (for_each_M_skip passed_over). }
  rewrite Hloop. cbv iota beta.
  unfold bind, chat_completions_create, ret, list_append.
  fold (answer_request deployment_name schema question first).
  simpl world. rewrite Hfinal. simpl trace.
  now rewrite <- app_assoc.
Qed.

(** The arguments of every tool call of the first response are decoded
    before the name of the tool is looked at, outside any handler.  So a
    call whose arguments do not decode makes [process_question] raise, after
    the calls before it that are passed over: the answer is never asked
    for. *)
Theorem process_question_undecodable_arguments (question : string) (s : State World)
    (first : ChatMessage.t) (pre post : list ToolCall.t) (call : ToolCall.t)
    (w1 : World) :
  create (first_request deployment_name schema question) (world s) = (first, w1) ->
  ChatMessage.tool_calls first = Some (pre ++ call :: post)%list ->
  Forall passed_over pre ->
  ToolCall.function_arguments call = None ->
  exists e,
    process_question World create conn_execute deployment_name schema question s
    = (Raise e,
       mkState w1
         (trace s ++ [Invoked (first_request deployment_name schema question) first])).
Proof.
  intros Hfirst Hcalls Hall Hargs.
  unfold process_question.
  fold (seed_process_question schema question).
  fold (first_request deployment_name schema question).
  match goal with
  | |- context [for_each_M _ _ ?b] => set (body := b)
  end.
  assert (Hbody : forall st call s, passed_over call -> body st call s = (Ok st, s)).
  { intros [messages results] call' s' [Hname Hargs']. subst body. cbv beta iota.
    destruct (ToolCall.function_arguments call') as [a|]; [|now elim Hargs'].
    unfold bind, json_loads, ret.
    destruct (String.eqb_spec (ToolCall.function_name call') "query_database")
      as [Hqd | _]; [now elim Hname | reflexivity]. }
  assert (Hraise : forall st s', body st call s' = (Raise "JSONDecodeError", s')).
  { intros [messages results] s'. subst body. cbv beta iota.
    now rewrite Hargs. }
  clearbody body.
  exists "JSONDecodeError".
  unfold bind at 1. unfold chat_completions_create at 1.
  rewrite Hfirst. cbv iota beta.
  unfold bind at 1. rewrite Hcalls. cbn [get].
  replace (truthy_option_list (Some (pre ++ call :: post)%list)) with true
    by (now destruct pre).
  rewrite (for_each_M_raise passed_over pre post call _ body _ "JSONDecodeError")
    by auto.
  reflexivity.
Qed.

(** [process_user_question] decodes the arguments in the same place, and
    raises in the same way. *)
Theorem process_user_question_undecodable_arguments (question : string)
    (s : State World) (first : ChatMessage.t) (pre post : list ToolCall.t)
    (call : ToolCall.t) (w1 : World) :
  create (first_request_user deployment_name schema question) (world s) = (first, w1) ->
  ChatMessage.tool_calls first = Some (pre ++ call :: post)%list ->
  Forall passed_over_user pre ->
  ToolCall.function_arguments call = None ->
  exists e,
    process_user_question World create conn_execute deployment_name schema question s
    = (Raise e,
       mkState w1
         (trace s
            ++ [Invoked (first_request_user deployment_name schema question) first])).
Proof.
  intros Hfirst Hcalls Hall Hargs.
  unfold process_user_question.
  fold (seed_process_user_question schema question).
  fold (first_request_user deployment_name schema question).
  match goal with
  | |- context [for_each_M _ _ ?b] => set (body := b)
  end.
  assert (Hbody : forall st call s, passed_over_user call -> body st call s = (Ok st, s)).
  { intros [messages results] call' s' (Hname & Hname' & Hargs'). subst body.
    cbv beta iota.
    destruct (ToolCall.function_arguments call') as [a|]; [|now elim Hargs'].
    unfold bind, json_loads, ret.
    destruct (String.eqb_spec (ToolCall.function_name call') "query_database")
      as [Hqd | _]; [now elim Hname|].
    destruct (String.eqb_spec (ToolCall.function_name call') "execute_query")
      as [Hex | _]; [now elim Hname' | reflexivity]. }
  assert (Hraise : forall st s', body st call s' = (Raise "JSONDecodeError", s')).
  { intros [messages results] s'. subst body. cbv beta iota.
    now rewrite Hargs. }
  clearbody body.
  exists "JSONDecodeError".
  unfold bind at 1. unfold chat_completions_create at 1.
  rewrite Hfirst. cbv iota beta.
  unfold bind at 1. rewrite Hcalls. cbn [get].
  replace (truthy_option_list (Some (pre ++ call :: post)%list)) with true
    by (now destruct pre).
  rewrite (for_each_M_raise passed_over_user pre post call _ body _ "JSONDecodeError")
    by auto.
  reflexivity.
Qed.


(** When the first response calls [query_database] and the follow-up
    response, although [execute_query] was forced, carries no tool call,
    [process_question] returns the compiled statement without rows: the
    program never submits the statement it compiled, only the model can ask
    for that. *)
Theorem process_question_query_without_execution (question : string) (s : State World)
    (first follow final : ChatMessage.t) (call : ToolCall.t) (a : Arguments.t)
    (w1 w2 w3 : World) :
  create (first_request deployment_name schema question) (world s) = (first, w1) ->
  ChatMessage.tool_calls first = Some [call] ->
  ToolCall.function_name call = "query_database" ->
  ToolCall.function_arguments call = Some a ->
  let sql := build_sql_query (query_structure_with_defaults (Arguments.structure a)) in
  let conversation :=
    (seed_process_question schema question
       ++ [ResponseMessage first;
           ToolMessage (ToolCall.id call) "query_database" (PSql "sql" sql)])%list in
  let follow_request :=
    Request.mk deployment_name conversation (Some tools_process_question)
      (Some (Function "execute_query")) in
  let final_request :=
    Request.mk deployment_name (conversation ++ [ResponseMessage follow])%list
      None None in
  create follow_request w1 = (follow, w2) ->
  truthy_option_list (ChatMessage.tool_calls follow) = false ->
  create final_request w2 = (final, w3) ->
  process_question World create conn_execute deployment_name schema question s
  = (Ok (Results.mk question (Some sql) None (ChatMessage.content final)),
     mkState w3
       (trace s ++ [Invoked (first_request deployment_name schema question) first;
                    Invoked follow_request follow;
                    Invoked final_request final])).
Proof.
  intros Hfirst Hcalls Hname Hargs sql conversation follow_request final_request
    Hfollow Hnone Hfinal.
  subst sql conversation follow_request final_request.
  unfold query_structure_with_defaults in *.
  unfold process_question.
  fold (seed_process_question schema question).
  fold (first_request deployment_name schema question).
  unfold bind at 1. unfold chat_completions_create at 1.
  rewrite Hfirst. cbv iota beta.
  unfold bind at 1. rewrite Hcalls.
  cbn [truthy_option_list truthy_list get for_each_M].
  rewrite Hname, Hargs.
  cbn [String.eqb Ascii.eqb Bool.eqb json_loads].
  unfold bind at 1 2. unfold ret at 1. unfold bind at 1.
  unfold chat_completions_create at 1. unfold list_append.
  rewrite <- !app_assoc. cbn [app world trace].
  rewrite Hfollow. cbv iota beta. rewrite Hnone.
  unfold ret at 1 2, bind at 1, chat_completions_create.
  rewrite <- !app_assoc.
  cbn [app world trace Results.question Results.sql_query Results.query_results].
  rewrite <- !app_assoc in Hfinal. cbn [app] in Hfinal.
  rewrite Hfinal.
  unfold ret. now rewrite <- !app_assoc.
Qed.

End Loops.

Lemma process_question_passes_over_other_tools_witness :
  fst (process_question unit direct_execute_model toy_engine None [] example_question
         (mkState tt []))
  = Ok (Results.mk example_question None None (Some "Engineering has 100, Marketing 50.")).
Proof.
  refine (f_equal fst
            (process_question_passes_over_other_tools unit direct_execute_model
               toy_engine None [] example_question (mkState tt [])
               (ChatMessage.mk None (Some [direct_execute_call]))
               (ChatMessage.mk (Some "Engineering has 100, Marketing 50.") None)
               [direct_execute_call] tt tt eq_refl eq_refl _ eq_refl)).
  repeat constructor; discriminate.
Defined.

Lemma process_question_undecodable_arguments_witness :
  exists e,
    fst (process_question unit garbled_model toy_engine None [] example_question
           (mkState tt []))
    = Raise e.
Proof.
  destruct (process_question_undecodable_arguments unit garbled_model toy_engine None []
              example_question (mkState tt [])
              (ChatMessage.mk None (Some [garbled_call])) [] [] garbled_call tt
              eq_refl eq_refl (Forall_nil _) eq_refl) as (e & Hrun).
  exists e. exact (f_equal fst Hrun).
Defined.

Lemma process_user_question_undecodable_arguments_witness :
  exists e,
    fst (process_user_question unit garbled_model toy_engine None [] example_question
           (mkState tt []))
    = Raise e.
Proof.
  destruct (process_user_question_undecodable_arguments unit garbled_model toy_engine
              None [] example_question (mkState tt [])
              (ChatMessage.mk None (Some [garbled_call])) [] [] garbled_call tt
              eq_refl eq_refl (Forall_nil _) eq_refl) as (e & Hrun).
  exists e. exact (f_equal fst Hrun).
Defined.


Lemma process_question_query_without_execution_witness :
  fst (process_question unit structure_only_model toy_engine None [] example_question
         (mkState tt []))
  = Ok (Results.mk example_question (Some "SELECT * FROM budgets LIMIT 3") None
          (Some "I could not run the query.")).
Proof.
  exact (f_equal fst
           (process_question_query_without_execution unit structure_only_model
              toy_engine None [] example_question (mkState tt [])
              (ChatMessage.mk None (Some [structure_only_call]))
              (ChatMessage.mk (Some "The query is ready.") None)
              (ChatMessage.mk (Some "I could not run the query.") None)
              structure_only_call structure_only_arguments tt tt tt
              eq_refl eq_refl eq_refl eq_refl eq_refl eq_refl eq_refl)).
Defined.



Section LoopEvents.

Variable World : Type.
Variable create : Request.t -> World -> ChatMessage.t * World.
Variable conn_execute : Value -> World -> result Cursor.t * World.
Variable deployment_name : option string.
Variable schema : Schema.

Lemma extends_bind {A B : Type} (m : M World A) (k : A -> M World B) :
  adds m (fun _ _ => True) ->
  (forall a, adds (k a) (fun _ _ => True)) ->
  adds (bind m k) (fun _ _ => True).
Proof.
  intros Hm Hk. eapply adds_bind; [exact Hm | |auto].
  intros a t1 _. apply Hk.
Qed.

Lemma extends_for_each_M {A S : Type} (l : list A) (acc : S)
    (body : S -> A -> M World S) :
  (forall acc x, adds (body acc x) (fun _ _ => True)) ->
  adds (for_each_M l acc body) (fun _ _ => True).
Proof.
  intros Hbody.
  apply (adds_for_each_M World l acc body (fun _ => True)); auto.
Qed.

Lemma extends_execute_query (query : Value) :
  adds (DatabaseQueryAgent_execute_query World conn_execute query) (fun _ _ => True).
Proof.
  eapply adds_weaken; [apply (adds_execute_query World conn_execute query) | auto].
Qed.

Ltac extends :=
  repeat first
    [ apply adds_ret; exact I
    | apply adds_json_loads; intros; exact I
    | apply adds_chat_completions_create; intros; exact I
    | apply extends_execute_query
    | apply extends_for_each_M; intros [? ?] ?
    | apply extends_bind; [|intros ?]
    | match goal with
      | |- adds (if ?b then _ else _) _ => destruct b
      end ].

(** Every run of [process_question] that returns starts with the first
    invocation and ends with an invocation without tools, and the final
    answer is the content of the response to that last invocation, whatever
    tool calls came between. *)
Theorem process_question_answered_by_last_invocation (question : string) :
  adds (process_question World create conn_execute deployment_name schema question)
    (fun r t =>
       forall results, r = Ok results ->
         answered_by_last_invocation deployment_name
           (first_request deployment_name schema question)
           (Results.final_answer results) t).
Proof.
  unfold process_question.
  fold (seed_process_question schema question).
  fold (first_request deployment_name schema question).
  eapply adds_bind with
    (Q1 := fun r t => exists first,
             r = Ok first
             /\ t = [Invoked (first_request deployment_name schema question) first]).
  { apply adds_chat_completions_create. eauto. }
  2:{ intros e t1 _ results Hr. discriminate. }
  intros first t1 (first' & Hr & ->). injection Hr as <-.
  eapply adds_bind with (Q1 := fun _ _ => True).
  { extends. }
  2:{ intros e t1 _ results Hr. discriminate. }
  intros [messages results] t1 _.
  eapply adds_bind with
    (Q1 := fun r t => exists request final,
             r = Ok final /\ t = [Invoked request final]
             /\ Request.model request = deployment_name
             /\ Request.tools request = None
             /\ Request.tool_choice request = None).
  { apply adds_chat_completions_create. intros final.
    eexists _, final. repeat split. }
  2:{ intros e t2 _ results' Hr. discriminate. }
  intros final t2 (request & final' & Hr & -> & Hmodel & Htools & Hchoice).
  injection Hr as <-.
  apply adds_ret. intros results' Hr. injection Hr as <-.
  exists first, t1, request, final. rewrite app_nil_r. repeat split; auto.
Qed.

(** The same holds of [process_user_question] and the answer it returns. *)
Theorem process_user_question_answered_by_last_invocation (question : string) :
  adds (process_user_question World create conn_execute deployment_name schema question)
    (fun r t =>
       forall answer, r = Ok answer ->
         answered_by_last_invocation deployment_name
           (first_request_user deployment_name schema question)
           (Answer.answer answer) t).
Proof.
  unfold process_user_question.
  fold (seed_process_user_question schema question).
  fold (first_request_user deployment_name schema question).
  eapply adds_bind with
    (Q1 := fun r t => exists first,
             r = Ok first
             /\ t = [Invoked (first_request_user deployment_name schema question) first]).
  { apply adds_chat_completions_create. eauto. }
  2:{ intros e t1 _ answer Hr. discriminate. }
  intros first t1 (first' & Hr & ->). injection Hr as <-.
  eapply adds_bind with (Q1 := fun _ _ => True).
  { extends. }
  2:{ intros e t1 _ answer Hr. discriminate. }
  intros [messages query_results] t1 _.
  eapply adds_bind with
    (Q1 := fun r t => exists request final,
             r = Ok final /\ t = [Invoked request final]
             /\ Request.model request = deployment_name
             /\ Request.tools request = None
             /\ Request.tool_choice request = None).
  { apply adds_chat_completions_create. intros final.
    eexists _, final. repeat split. }
  2:{ intros e t2 _ answer Hr. discriminate. }
  intros final t2 (request & final' & Hr & -> & Hmodel & Htools & Hchoice).
  injection Hr as <-.
  apply adds_ret. intros answer Hr. injection Hr as <-.
  exists first, t1, request, final. rewrite app_nil_r. repeat split; auto.
Qed.


End LoopEvents.
